(** * XDBF records of xenia's XAM kernel module

    A shallow embedding of [src/xenia/kernel/xam/xdbf/xdbf.h]: the
    achievement record, the title-played record and the typed setting
    value, together with the properties the specification states about
    them.

    Conventions.
    - A [uintN_t] is a [Z] in [0, 2^N); every place where the C++ code
      narrows or complements a value has the wrap-around written out.
    - A [std::wstring] is a list of 16-bit code units.  The code hard-wires
      two bytes per [wchar_t] ([length() * 2 + 2], [cbData - 2]).
    - Byte buffers ([std::vector<uint8_t>], raw memory behind a pointer) are
      lists of bytes, each a [Z] in [0, 256).  The host is little-endian.
    - An [assert] that fails and an access outside a buffer do not produce
      a value; both are results of the [outcome] type. *)

From Stdlib Require Import ZArith Lia Bool List.
From Stdlib Require Strings.String Strings.Ascii.
From stdpp Require Import base option list.
Import ListNotations.
Import String.StringSyntax.
Local Delimit Scope string_scope with string.

Local Open Scope Z_scope.

(** ** Machine integers *)

Definition to_uint16 (x : Z) : Z := x mod 2 ^ 16.
Definition to_uint32 (x : Z) : Z := x mod 2 ^ 32.
Definition to_uint64 (x : Z) : Z := x mod 2 ^ 64.

(** [~x] on a [uint32_t]. *)
Definition not32 (x : Z) : Z := to_uint32 (Z.lnot x).

(** Contextual conversion of an integer to [bool]. *)
Definition to_bool (x : Z) : bool := negb (x =? 0).

(** What a [uint8_t] and a (two-byte) [wchar_t] can hold. *)
Definition is_byte (b : Z) : Prop := 0 <= b < 256.
Definition is_wchar (c : Z) : Prop := 0 <= c < 65536.

(** A wide string: the code units of a [std::wstring], terminator excluded. *)
Definition wstring : Type := list Z.

(** Every code unit fits a [wchar_t]; no code unit is the terminator. *)
Definition wf_wstring (s : wstring) : Prop := Forall is_wchar s.
Definition no_null (s : wstring) : Prop := Forall (fun c => c <> 0) s.

(** ** Outcomes

    The functions of xdbf.h return no error codes.  What can go wrong in
    them is an [assert] whose condition is false, and an access through a
    pointer that leaves the buffer it points into (undefined behaviour in
    C++).  Neither produces a value. *)

Inductive fault : Type :=
  | AssertionFailure
  | OutOfBounds.

Inductive outcome (A : Type) : Type :=
  | Ok (a : A)
  | Fault (f : fault).

Arguments Ok {A} a.
Arguments Fault {A} f.

#[global] Instance outcome_ret : MRet outcome := fun A a => Ok a.

#[global] Instance outcome_bind : MBind outcome := fun A B k m =>
  match m with
  | Ok a => k a
  | Fault f => Fault f
  end.

Definition assert (cond : bool) : outcome unit :=
  if cond then Ok tt else Fault AssertionFailure.

(** ** Byte order and raw memory *)

(** Modelled from the spec: [xe::byte_swap] on a 16-bit value
    (xenia/base/byte_order.h is not under src).  The spec has the codec
    convert every multi-byte field between host order and the format's
    big-endian order; for a [wchar_t] that exchanges its two bytes. *)
Definition byte_swap (v : Z) : Z :=
  to_uint16 (Z.lor (Z.shiftr v 8) (Z.shiftl v 8)).

(** [*(wchar_t* )p] on the little-endian host: [b0] is the byte at [p],
    [b1] the byte at [p + 1]. *)
Definition load_wchar (b0 b1 : Z) : Z := b0 + b1 * 256.

(** [*(wchar_t* )p = v] on the little-endian host: the two bytes stored. *)
Definition store_wchar (v : Z) : list Z := [v mod 256; v / 256].

(** The [wchar_t] array seen through [(wchar_t* )buf.data()]. *)
Fixpoint load_wchars (bytes : list Z) : list Z :=
  match bytes with
  | b0 :: b1 :: rest => load_wchar b0 b1 :: load_wchars rest
  | _ => []
  end.

(** A store of [bytes] at byte offset [off] of [buf]; the store must stay
    inside the buffer. *)
Definition write_bytes (off : Z) (bytes buf : list Z) : outcome (list Z) :=
  if (0 <=? off) && (off + Z.of_nat (length bytes) <=? Z.of_nat (length buf))
  then Ok (take (Z.to_nat off) buf ++ bytes
             ++ drop (Z.to_nat off + length bytes) buf)
  else Fault OutOfBounds.

(** A load of [n] bytes from the memory [mem] readable at a pointer. *)
Definition read_bytes (n : nat) (mem : list Z) : outcome (list Z) :=
  if (n <=? length mem)%nat then Ok (take n mem) else Fault OutOfBounds.

(** [memcpy(dest, src, n)]: [dest] lists the bytes writable at the
    destination, [src] the bytes readable at the source. *)
Definition memcpy (dest src : list Z) (n : nat) : outcome (list Z) :=
  bytes ← read_bytes n src;
  write_bytes 0 bytes dest.

(** [memset(dest, 0, n)]. *)
Definition memset_zero (dest : list Z) (n : nat) : outcome (list Z) :=
  write_bytes 0 (replicate n 0) dest.

(** Modelled from the spec: [xe::copy_and_swap<wchar_t>(dest, src, count)]
    (xenia/base/memory.h is not under src): [count] code units are read
    from [src], each is byte-swapped and stored at the same index of
    [dest].  [src] lists the code units readable at the source pointer,
    [dest] the bytes writable at the destination pointer. *)
Definition copy_and_swap (dest : list Z) (src : list Z) (count : nat)
  : outcome (list Z) :=
  if (count <=? length src)%nat
  then write_bytes 0 (flat_map (fun c => store_wchar (byte_swap c))
                               (take count src)) dest
  else Fault OutOfBounds.

(** [s.c_str()]: the code units of [s] and the terminator after them. *)
Definition c_str (s : wstring) : list Z := s ++ [0].

(** [std::wstring(const wchar_t* )]: the code units before the first zero
    one.  [units] lists the code units readable at the pointer. *)
Fixpoint wstring_of_c_str (units : list Z) : outcome wstring :=
  match units with
  | [] => Fault OutOfBounds
  | c :: rest =>
      if c =? 0 then Ok []
      else match wstring_of_c_str rest with
           | Ok s => Ok (c :: s)
           | Fault f => Fault f
           end
  end.

(** [ReadNullTermString(ptr)]; [mem] lists the bytes readable from [ptr]
    on.  The function has no length argument: the scan ends at the first
    zero code unit, or leaves the readable memory. *)
Fixpoint ReadNullTermString (mem : list Z) : outcome wstring :=
  match mem with
  | b0 :: b1 :: rest =>
      let data := byte_swap (load_wchar b0 b1) in
      if data =? 0 then Ok []
      else match ReadNullTermString rest with
           | Ok retval => Ok (data :: retval)
           | Fault f => Fault f
           end
  | _ => Fault OutOfBounds
  end.

(** What a [const X* src] gives access to: the fixed struct [*src] and the
    bytes that follow it in memory ([src + 1] and on). *)
Record at_ptr (H : Type) : Type := AtPtr {
  header : H;
  trailing : list Z
}.

Arguments AtPtr {H} header trailing.
Arguments header {H} _.
Arguments trailing {H} _.

(** The byte range of a directory entry covers the struct and the first
    [n] trailing bytes.  [has_terminator] tells whether a zero code unit
    lies among the code units of a byte range. *)
Definition has_terminator (bytes : list Z) : bool :=
  existsb (fun c => byte_swap c =? 0) (load_wchars bytes).

(** The big-endian bytes of a wide string, terminator excluded. *)
Definition be_bytes (s : wstring) : list Z :=
  flat_map (fun c => [c / 256; c mod 256]) s.

(** The bytes of a wide string as the host keeps it in memory. *)
Definition le_bytes (s : wstring) : list Z := flat_map store_wchar s.

(** ** Title-played records *)

(** Modelled from the spec: the fixed structs of xdbf_xbox.h (not under
    src), with the fields xdbf.h reads and writes.  Each field holds the
    host value of its big-endian [xe::be<T>] member. *)
Record X_XDBF_AVATARAWARDS_COUNTER : Type := AvatarAwards {
  earned : Z;
  possible : Z
}.

Module X_XDBF_GPD_TITLEPLAYED.
Record t : Type := mk {
  title_id : Z;
  achievements_possible : Z;
  achievements_earned : Z;
  gamerscore_total : Z;
  gamerscore_earned : Z;
  reserved_achievement_count : Z;
  all_avatar_awards : X_XDBF_AVATARAWARDS_COUNTER;
  male_avatar_awards : X_XDBF_AVATARAWARDS_COUNTER;
  female_avatar_awards : X_XDBF_AVATARAWARDS_COUNTER;
  reserved_flags : Z;
  last_played : Z
}.
End X_XDBF_GPD_TITLEPLAYED.

Module TitlePlayed.
Record t : Type := mk {
  title_id : Z;                       (* uint32_t *)
  title_name : wstring;
  achievements_possible : Z;          (* uint32_t *)
  achievements_earned : Z;            (* uint32_t *)
  gamerscore_total : Z;               (* uint32_t *)
  gamerscore_earned : Z;              (* uint32_t *)
  reserved_achievement_count : Z;     (* uint16_t *)
  all_avatar_awards : X_XDBF_AVATARAWARDS_COUNTER;
  male_avatar_awards : X_XDBF_AVATARAWARDS_COUNTER;
  female_avatar_awards : X_XDBF_AVATARAWARDS_COUNTER;
  reserved_flags : Z;                 (* uint32_t *)
  last_played : Z                     (* uint64_t *)
}.

Definition init : t :=
  mk 0 [] 0 0 0 0 0 (AvatarAwards 0 0) (AvatarAwards 0 0) (AvatarAwards 0 0)
     0 0.

(** The header [WriteGPD] stores, field by field. *)
Definition to_header (self : t) : X_XDBF_GPD_TITLEPLAYED.t :=
  X_XDBF_GPD_TITLEPLAYED.mk
    (title_id self) (achievements_possible self) (achievements_earned self)
    (gamerscore_total self) (gamerscore_earned self)
    (reserved_achievement_count self)
    (all_avatar_awards self) (male_avatar_awards self)
    (female_avatar_awards self) (reserved_flags self) (last_played self).

(** [ReadGPD] assigns every member, so the record it leaves does not
    depend on the one it is called on.  Each assignment converts to the
    declared type of the member. *)
Definition ReadGPD (src : at_ptr X_XDBF_GPD_TITLEPLAYED.t) : outcome t :=
  let h := header src in
  let txt_ptr := trailing src in
  title_name ← ReadNullTermString txt_ptr;
  mret (mk (to_uint32 (X_XDBF_GPD_TITLEPLAYED.title_id h))
           title_name
           (to_uint32 (X_XDBF_GPD_TITLEPLAYED.achievements_possible h))
           (to_uint32 (X_XDBF_GPD_TITLEPLAYED.achievements_earned h))
           (to_uint32 (X_XDBF_GPD_TITLEPLAYED.gamerscore_total h))
           (to_uint32 (X_XDBF_GPD_TITLEPLAYED.gamerscore_earned h))
           (to_uint16 (X_XDBF_GPD_TITLEPLAYED.reserved_achievement_count h))
           (X_XDBF_GPD_TITLEPLAYED.all_avatar_awards h)
           (X_XDBF_GPD_TITLEPLAYED.male_avatar_awards h)
           (X_XDBF_GPD_TITLEPLAYED.female_avatar_awards h)
           (to_uint32 (X_XDBF_GPD_TITLEPLAYED.reserved_flags h))
           (to_uint64 (X_XDBF_GPD_TITLEPLAYED.last_played h))).

(** [WriteGPD(dest)]: [dest] is the memory at the destination pointer
    before the call, the result is that memory after it. *)
Definition WriteGPD (self : t) (dest : at_ptr X_XDBF_GPD_TITLEPLAYED.t)
  : outcome (at_ptr X_XDBF_GPD_TITLEPLAYED.t) :=
  let txt_ptr := trailing dest in
  txt ← copy_and_swap txt_ptr (c_str (title_name self))
                      (length (title_name self));
  mret (AtPtr (to_header self) txt).

(** Every integer member that [ReadGPD] converts holds a value of its
    declared type. *)
Definition in_range (self : t) : Prop :=
  0 <= title_id self < 2 ^ 32
  /\ 0 <= achievements_possible self < 2 ^ 32
  /\ 0 <= achievements_earned self < 2 ^ 32
  /\ 0 <= gamerscore_total self < 2 ^ 32
  /\ 0 <= gamerscore_earned self < 2 ^ 32
  /\ 0 <= reserved_achievement_count self < 2 ^ 16
  /\ 0 <= reserved_flags self < 2 ^ 32
  /\ 0 <= last_played self < 2 ^ 64.
End TitlePlayed.

(** ** Achievements *)

Module AchievementFlags.
Definition kTypeMask : Z := 0x7.
Definition kShowUnachieved : Z := 0x8.
Definition kAchievedOnline : Z := 0x10000.
Definition kAchieved : Z := 0x20000.
Definition kNotAchievable : Z := 0x40000.
Definition kWasNotAchievable : Z := 0x80000.
Definition kPlatformMask : Z := 0x700000.
Definition kColorizable : Z := 0x1000000.
End AchievementFlags.

Module X_XDBF_GPD_ACHIEVEMENT.
Record t : Type := mk {
  id : Z;
  image_id : Z;
  gamerscore : Z;
  flags : Z;
  unlock_time : Z
}.
End X_XDBF_GPD_ACHIEVEMENT.

Module Achievement.
Import AchievementFlags.

Record t : Type := mk {
  id : Z;                    (* uint16_t *)
  label : wstring;
  description : wstring;
  unachieved_desc : wstring;
  image_id : Z;              (* uint32_t *)
  gamerscore : Z;            (* uint32_t *)
  flags : Z;                 (* uint32_t *)
  unlock_time : Z            (* uint64_t *)
}.

(** The default member initialisers of the struct. *)
Definition init : t := mk 0 [] [] [] 0 0 0 0.

Definition with_flags (f : Z) (a : t) : t :=
  mk (id a) (label a) (description a) (unachieved_desc a)
     (image_id a) (gamerscore a) f (unlock_time a).

Definition with_unlock_time (u : Z) (a : t) : t :=
  mk (id a) (label a) (description a) (unachieved_desc a)
     (image_id a) (gamerscore a) (flags a) u.

Definition GetType (a : t) : Z := Z.land (flags a) kTypeMask.

Definition GetPlatform (a : t) : Z := Z.land (flags a) kPlatformMask.

Definition IsUnlockable (a : t) : bool :=
  negb (to_bool (Z.land (flags a) kNotAchievable))
  || to_bool (Z.land (flags a) kWasNotAchievable).

Definition IsUnlocked (a : t) : bool :=
  to_bool (Z.land (flags a) kAchieved).

Definition IsUnlockedOnline (a : t) : bool :=
  to_bool (Z.land (flags a) kAchievedOnline).

(** [Unlock] reads the host clock; [host_time] is what
    [Clock::QueryHostSystemTime()] returns at the call. *)
Definition Unlock (host_time : Z) (online : bool) (a : t) : t :=
  if negb (IsUnlockable a) then a
  else
    let a1 := with_flags (Z.lor (flags a) kAchieved) a in
    let a2 :=
      if online then with_flags (Z.lor (flags a1) kAchievedOnline) a1
      else a1 in
    with_unlock_time host_time a2.

Definition Lock (a : t) : t :=
  let a1 := with_flags (Z.land (flags a) (not32 kAchieved)) a in
  let a2 := with_flags (Z.land (flags a1) (not32 kAchievedOnline)) a1 in
  with_unlock_time 0 a2.

(** [ReadGPD] assigns every member; the three strings lie back to back
    after the header, and each next one is looked for right after the
    terminator of the one before. *)
Definition ReadGPD (src : at_ptr X_XDBF_GPD_ACHIEVEMENT.t) : outcome t :=
  let h := header src in
  let txt_ptr := trailing src in
  label ← ReadNullTermString txt_ptr;
  let txt_ptr := drop (length label * 2 + 2)%nat txt_ptr in
  description ← ReadNullTermString txt_ptr;
  let txt_ptr := drop (length description * 2 + 2)%nat txt_ptr in
  unachieved_desc ← ReadNullTermString txt_ptr;
  mret (mk (to_uint16 (X_XDBF_GPD_ACHIEVEMENT.id h))
           label description unachieved_desc
           (to_uint32 (X_XDBF_GPD_ACHIEVEMENT.image_id h))
           (to_uint32 (X_XDBF_GPD_ACHIEVEMENT.gamerscore h))
           (to_uint32 (X_XDBF_GPD_ACHIEVEMENT.flags h))
           (to_uint64 (X_XDBF_GPD_ACHIEVEMENT.unlock_time h))).
End Achievement.

(** ** Settings *)

(** Modelled from the spec: [X_XUSER_DATA_TYPE] and [X_XUSER_DATA] of
    xdbf_xbox.h (not under src).  The spec gives the type tags {Null,
    Int32, Int64, Float, Double, Unicode-string, Binary, DateTime}, an
    8-byte inline payload for the scalar types and a length field for the
    string and binary types.  The payload is a union of big-endian
    members; it is kept as the 64-bit number its eight bytes spell in that
    order, so a 4-byte member ([nData], [fData], [string.cbData],
    [binary.cbData]) is its upper half. *)
Inductive X_XUSER_DATA_TYPE : Type :=
  | kNull | kInt32 | kInt64 | kFloat | kDouble | kUnicode | kBinary
  | kDateTime.

#[global] Instance X_XUSER_DATA_TYPE_eq_dec : EqDecision X_XUSER_DATA_TYPE.
Proof. solve_decision. Defined.

Module X_XUSER_DATA.
Record t : Type := mk {
  type : X_XUSER_DATA_TYPE;
  payload : Z
}.

Definition set_type (ty : X_XUSER_DATA_TYPE) (v : t) : t :=
  mk ty (payload v).

(** The 8-byte members [i64Data] and [dblData]. *)
Definition get8 (v : t) : Z := payload v.
Definition set8 (x : Z) (v : t) : t := mk (type v) (to_uint64 x).

(** The 4-byte members [nData], [fData], [string.cbData] and
    [binary.cbData]: the first four bytes of the payload. *)
Definition get4 (v : t) : Z := payload v / 2 ^ 32.
Definition set4 (x : Z) (v : t) : t :=
  mk (type v) (to_uint32 x * 2 ^ 32 + payload v mod 2 ^ 32).
End X_XUSER_DATA.

(** [sizeof(wchar_t)] on the host the code is written for. *)
Definition sizeof_wchar_t : nat := 2.

(** Modelled from the spec: the fixed struct of a stored setting
    (xdbf_xbox.h, not under src), with the two members xdbf.h reads. *)
Module X_XDBF_GPD_SETTING.
Record t : Type := mk {
  setting_id : Z;
  value : X_XUSER_DATA.t
}.
End X_XDBF_GPD_SETTING.

Module Setting.
Record t : Type := mk {
  id : Z;                       (* X_XDBF_SETTING_ID *)
  value : X_XUSER_DATA.t;
  extraData : list Z            (* std::vector<uint8_t> *)
}.

Definition with_value (v : X_XUSER_DATA.t) (self : t) : t :=
  mk (id self) v (extraData self).

Definition with_extraData (d : list Z) (self : t) : t :=
  mk (id self) (value self) d.

Section Mandate.
(** [XPROFILEID_TYPE(id)], the type the setting id mandates.  The macro
    is declared outside xdbf.h; the functions below only compare what
    it returns with a type tag. *)
Variable XPROFILEID_TYPE : Z -> X_XUSER_DATA_TYPE.

Definition type_matches (self : t) : bool :=
  bool_decide (XPROFILEID_TYPE (id self) = X_XUSER_DATA.type (value self)).

Definition Value_uint32 (new_value : Z) (self : t) : outcome t :=
  let self := with_value (X_XUSER_DATA.set_type kInt32 (value self)) self in
  _ ← assert (type_matches self);
  let self := with_value (X_XUSER_DATA.set4 new_value (value self)) self in
  mret (with_extraData [] self).

Definition Value_uint64 (new_value : Z) (self : t) : outcome t :=
  let self := with_value (X_XUSER_DATA.set_type kInt64 (value self)) self in
  let self :=
    if bool_decide (XPROFILEID_TYPE (id self) = kDateTime)
    then with_value (X_XUSER_DATA.set_type kDateTime (value self)) self
    else self in
  _ ← assert (type_matches self);
  let self := with_value (X_XUSER_DATA.set8 new_value (value self)) self in
  mret (with_extraData [] self).

(** A [float] is kept as its 32 bits, a [double] as its 64 bits; the
    assignments to [fData] and [dblData] store them as they are. *)
Definition Value_float (new_value : Z) (self : t) : outcome t :=
  let self := with_value (X_XUSER_DATA.set_type kFloat (value self)) self in
  _ ← assert (type_matches self);
  let self := with_value (X_XUSER_DATA.set4 new_value (value self)) self in
  mret (with_extraData [] self).

Definition Value_double (new_value : Z) (self : t) : outcome t :=
  let self := with_value (X_XUSER_DATA.set_type kDouble (value self)) self in
  _ ← assert (type_matches self);
  let self := with_value (X_XUSER_DATA.set8 new_value (value self)) self in
  mret (with_extraData [] self).

Definition Value_wstring (new_value : wstring) (self : t) : outcome t :=
  let self := with_value (X_XUSER_DATA.set_type kUnicode (value self)) self in
  _ ← assert (type_matches self);
  let self := with_value (X_XUSER_DATA.set8 0 (value self)) self in
  let self :=
    with_value
      (X_XUSER_DATA.set4
         (to_uint32 (Z.of_nat ((length new_value + 1) * sizeof_wchar_t)))
         (value self)) self in
  let cbData := X_XUSER_DATA.get4 (value self) in
  let buf := resize (Z.to_nat cbData) 0 (extraData self) in
  buf ← copy_and_swap buf (c_str new_value) (length new_value);
  buf ← write_bytes (cbData - 2) (store_wchar 0) buf;
  mret (with_extraData buf self).

(** The constructors.  [storage] is what the member [value] holds
    before the constructor body runs: it has no initialiser. *)
Definition Setting_default (storage : X_XUSER_DATA.t) : t :=
  mk 0 (X_XUSER_DATA.set_type kNull storage) [].

Definition Setting_uint32 (storage : X_XUSER_DATA.t) (id : Z) (v : Z)
  : outcome t := Value_uint32 v (mk id storage []).

Definition Setting_uint64 (storage : X_XUSER_DATA.t) (id : Z) (v : Z)
  : outcome t := Value_uint64 v (mk id storage []).

Definition Setting_float (storage : X_XUSER_DATA.t) (id : Z) (v : Z)
  : outcome t := Value_float v (mk id storage []).

Definition Setting_wstring (storage : X_XUSER_DATA.t) (id : Z)
  (v : wstring) : outcome t := Value_wstring v (mk id storage []).

Definition Setting_binary (storage : X_XUSER_DATA.t) (id : Z)
  (v : list Z) : outcome t :=
  mret (mk id (X_XUSER_DATA.set_type kBinary storage) v).
End Mandate.

Definition ValueString (self : t) : outcome wstring :=
  _ ← assert (bool_decide (X_XUSER_DATA.type (value self) = kUnicode));
  let swapped := resize (length (extraData self)) 0 [] in
  swapped ← copy_and_swap swapped (load_wchars (extraData self))
                          (length (extraData self) / sizeof_wchar_t)%nat;
  wstring_of_c_str (load_wchars swapped).

(** [ReadGPD(src)] on the setting [self].  The out-of-line bytes are
    taken from right after the struct, as many as the length member says;
    for the other types [extraData] is not touched. *)
Definition ReadGPD (src : at_ptr X_XDBF_GPD_SETTING.t) (self : t) : outcome t :=
  let self :=
    mk (X_XDBF_GPD_SETTING.setting_id (header src))
       (X_XDBF_GPD_SETTING.value (header src)) (extraData self) in
  if bool_decide (X_XUSER_DATA.type (value self) = kBinary) then
    let cbData :=
      Z.to_nat (X_XUSER_DATA.get4 (X_XDBF_GPD_SETTING.value (header src))) in
    let buf := resize cbData 0 (extraData self) in
    buf ← memcpy buf (trailing src) cbData;
    mret (with_extraData buf self)
  else if bool_decide (X_XUSER_DATA.type (value self) = kUnicode) then
    let cbData :=
      Z.to_nat (X_XUSER_DATA.get4 (X_XDBF_GPD_SETTING.value (header src))) in
    let buf := resize cbData 0 (extraData self) in
    buf ← memcpy buf (trailing src) cbData;
    mret (with_extraData buf self)
  else mret self.
End Setting.

(** ** Title id classes (xam_misc.cc)

    The exports return a [bool] converted to a guest dword; the [bool] is
    kept.  [title_id] is a [uint32_t]. *)

Definition XamIsSystemTitleId (title_id : Z) : bool :=
  if title_id =? 0 then true
  else if Z.land title_id 0xFF000000 =? 0x58000000
  then negb (Z.land title_id 0xFF0000 =? 0x410000)
  else Z.shiftr title_id 16 =? 0xFFFE.

Definition XamIsXbox1TitleId (title_id : Z) : bool :=
  if title_id =? 0xFFFE0000 then true
  else if (title_id =? 0) || (Z.land title_id 0xFF000000 =? 0xFF000000)
  then false
  else Z.land title_id 0x7FFF <? 0x7D0.

Definition XamIsSystemExperienceTitleId (title_id : Z) : bool :=
  if Z.shiftr title_id 16 =? 0x584A then true
  else if Z.shiftr title_id 16 =? 0x5848 then true
  else (title_id =? 0x584E07D2) || (title_id =? 0x584E07D1).

(** ** Dialogs (xam_ui.cc) *)

(** The characters of a narrow string literal. *)
Definition chars (s : String.string) : list Z :=
  map (fun a => Z.of_N (Ascii.N_of_ascii a)) (String.list_ascii_of_string s).

(** The [n] bytes [strncpy] stores: the characters of the C string at
    [src] up to its terminator, then zeros.  [src] lists the bytes
    readable at the source pointer. *)
Fixpoint strncpy_bytes (src : list Z) (n : nat) {struct n}
  : outcome (list Z) :=
  match n with
  | O => Ok []
  | S n' =>
      match src with
      | [] => Fault OutOfBounds
      | c :: rest =>
          if c =? 0 then Ok (replicate n 0)
          else match strncpy_bytes rest n' with
               | Ok l => Ok (c :: l)
               | Fault f => Fault f
               end
      end
  end.

Definition strncpy (dest src : list Z) (n : nat) : outcome (list Z) :=
  bytes ← strncpy_bytes src n;
  write_bytes 0 bytes dest.

(** A pointer to a result slot is [None] when null, and otherwise holds
    what the slot contains. *)
Module MessageBoxDialog.
Record t : Type := mk {
  has_opened_ : bool;
  title_ : list Z;                     (* std::string *)
  description_ : list Z;               (* std::string *)
  buttons_ : list wstring;
  default_button_ : Z;
  out_chosen_button_ : option Z
}.

Section Conversion.
(** [xe::to_string], the conversion of a wide string to a narrow one; it
    is declared outside these files. *)
Variable to_string : wstring -> list Z.

(** The constructor. *)
Definition create (title description : wstring) (buttons : list wstring)
    (default_button : Z) (out_chosen_button : option Z) : t :=
  let title_ := to_string title in
  let description_ := to_string description in
  let title_ :=
    if negb (Z.of_nat (length title_) =? 0) then title_
    else chars "Message Box"%string in
  let out_chosen_button :=
    match out_chosen_button with
    | Some _ => Some default_button
    | None => None
    end in
  mk false title_ description_ buttons default_button out_chosen_button.
End Conversion.
End MessageBoxDialog.

Module KeyboardInputDialog.
Record t : Type := mk {
  has_opened_ : bool;
  title_ : list Z;                     (* std::string *)
  description_ : list Z;               (* std::string *)
  default_text_ : list Z;              (* std::string *)
  out_text_ : option wstring;
  text_buffer_ : list Z;               (* std::vector<char> *)
  max_length_ : Z                      (* size_t *)
}.

Section Conversion.
Variable to_string : wstring -> list Z.

(** The constructor.  [text_buffer_.size() - 1] is a [size_t]
    subtraction. *)
Definition create (title description default_text : wstring)
    (out_text : option wstring) (max_length : Z) : outcome t :=
  let title_ := to_string title in
  let description_ := to_string description in
  let default_text_ := to_string default_text in
  let '(title_, description_) :=
    if negb (Z.of_nat (length title_) =? 0) then (title_, description_)
    else if negb (Z.of_nat (length description_) =? 0)
    then (description_, chars ""%string)
    else (chars "Keyboard Input"%string, description_) in
  let out_text :=
    match out_text with
    | Some _ => Some default_text
    | None => None
    end in
  let text_buffer_ := resize (Z.to_nat max_length) 0 [] in
  let count :=
    Z.min (to_uint64 (Z.of_nat (length text_buffer_) - 1))
          (Z.of_nat (length default_text_)) in
  text_buffer_ ← strncpy text_buffer_ (default_text_ ++ [0]) (Z.to_nat count);
  mret (mk false title_ description_ default_text_ out_text text_buffer_
           max_length).
End Conversion.
End KeyboardInputDialog.

(** What the completion of [XamShowKeyboardUI] stores in the guest buffer
    once the dialog has closed with [out_text]: the buffer is zeroed over
    [buffer_length * 2] bytes (a [uint32_t] product), then at most
    [buffer_length] code units of the text are copied, byte-swapped.
    [buffer] lists the bytes writable at the guest pointer. *)
Definition XamShowKeyboardUI_store (buffer_length : Z) (out_text : wstring)
    (buffer : list Z) : outcome (list Z) :=
  buffer ← memset_zero buffer (Z.to_nat (to_uint32 (buffer_length * 2)));
  let size := buffer_length in
  let size :=
    if Z.of_nat (length out_text) <? size then Z.of_nat (length out_text)
    else size in
  copy_and_swap buffer (c_str out_text) (Z.to_nat size).

(** ** Sample records *)

Definition sample_title_header : X_XDBF_GPD_TITLEPLAYED.t :=
  X_XDBF_GPD_TITLEPLAYED.mk 0x4D5307E6 50 12 1000 240 0
    (AvatarAwards 1 3) (AvatarAwards 0 1) (AvatarAwards 1 2) 0
    0x01D2C8F4A1B2C3D4.

(** A title-played entry whose byte range ends four bytes after the
    header: the name "AB" fills the range and has no terminator in it.
    The four bytes after the range belong to whatever is next in memory. *)
Definition sample_title_src : at_ptr X_XDBF_GPD_TITLEPLAYED.t :=
  AtPtr sample_title_header [0; 65; 0; 66;   0; 67; 0; 0].

Definition sample_achievement_header : X_XDBF_GPD_ACHIEVEMENT.t :=
  X_XDBF_GPD_ACHIEVEMENT.mk 7 32 25 0x100003 0.

(** An achievement entry whose byte range ends four bytes after the
    header, inside the label. *)
Definition sample_achievement_src : at_ptr X_XDBF_GPD_ACHIEVEMENT.t :=
  AtPtr sample_achievement_header
        [0; 65; 0; 66;   0; 67; 0; 0;  0; 68; 0; 0;  0; 69; 0; 0].

Definition sample_title : TitlePlayed.t :=
  TitlePlayed.mk 0x4D5307E6 [88] 50 12 1000 240 0
    (AvatarAwards 1 3) (AvatarAwards 0 1) (AvatarAwards 1 2) 0
    0x01D2C8F4A1B2C3D4.

(** A destination buffer that held other data before: header and four
    trailing bytes, all bits set. *)
Definition stale_dest : at_ptr X_XDBF_GPD_TITLEPLAYED.t :=
  AtPtr (X_XDBF_GPD_TITLEPLAYED.mk 0xFFFFFFFF 0xFFFFFFFF 0xFFFFFFFF
           0xFFFFFFFF 0xFFFFFFFF 0xFFFF
           (AvatarAwards 255 255) (AvatarAwards 255 255)
           (AvatarAwards 255 255) 0xFFFFFFFF 0xFFFFFFFFFFFFFFFF)
        [255; 255; 255; 255].

(** A sample id-to-type table for the worked examples: the four top bits
    of a 32-bit setting id name its type. *)
Definition sample_mandate (id : Z) : X_XUSER_DATA_TYPE :=
  match id / 2 ^ 28 with
  | 1 => kInt32
  | 2 => kInt64
  | 3 => kDouble
  | 4 => kUnicode
  | 5 => kFloat
  | 6 => kBinary
  | 7 => kDateTime
  | _ => kNull
  end.

Definition sample_int32_id : Z := 0x10040002.
Definition sample_unicode_id : Z := 0x402C0011.
Definition sample_datetime_id : Z := 0x70040020.
Definition sample_int64_id : Z := 0x20040030.

(** The member [value] of a setting under construction: what the memory
    happened to hold. *)
Definition sample_storage : X_XUSER_DATA.t :=
  X_XUSER_DATA.mk kNull 0xCDCDCDCDCDCDCDCD.

(** A setting that already holds a longer string ("hello"). *)
Definition sample_setting : Setting.t :=
  Setting.mk sample_unicode_id
    (X_XUSER_DATA.mk kUnicode (12 * 2 ^ 32))
    [0; 104; 0; 101; 0; 108; 0; 108; 0; 111; 0; 0].

(** A conversion for the worked examples: code units below 128 are kept
    as characters. *)
Definition sample_to_string (s : wstring) : list Z :=
  filter (fun c => c < 128) s.

(** * Properties *)

(** ** Bit-level facts *)

Lemma land_pow2_eq (x k : Z) :
  0 <= k -> Z.land x (2 ^ k) = if Z.testbit x k then 2 ^ k else 0.
Proof.
  intros Hk. apply Z.bits_inj'. intros n Hn.
  rewrite Z.land_spec, Z.pow2_bits_eqb by assumption.
  destruct (Z.eqb_spec k n) as [->|Hne].
  - destruct (Z.testbit x n); simpl.
    + now rewrite Z.pow2_bits_eqb, Z.eqb_refl.
    + now rewrite Z.bits_0.
  - rewrite andb_false_r. destruct (Z.testbit x k).
    + rewrite Z.pow2_bits_eqb by assumption.
      symmetry. now apply Z.eqb_neq.
    + now rewrite Z.bits_0.
Qed.

Lemma to_bool_land_pow2 (x k : Z) :
  0 <= k -> to_bool (Z.land x (2 ^ k)) = Z.testbit x k.
Proof.
  intros Hk. unfold to_bool. rewrite land_pow2_eq by assumption.
  destruct (Z.testbit x k); [|reflexivity].
  assert (0 < 2 ^ k) by (apply Z.pow_pos_nonneg; lia).
  destruct (Z.eqb_spec (2 ^ k) 0); [lia | reflexivity].
Qed.

Lemma testbit_not32 (x n : Z) :
  0 <= n < 32 -> Z.testbit (not32 x) n = negb (Z.testbit x n).
Proof.
  intros Hn. unfold not32, to_uint32.
  rewrite Z.mod_pow2_bits_low by lia. apply Z.lnot_spec. lia.
Qed.

(** ** Achievement state *)

Section AchievementState.
Import AchievementFlags Achievement.

Lemma IsUnlockable_bits (a : t) :
  IsUnlockable a = negb (Z.testbit (flags a) 18) || Z.testbit (flags a) 19.
Proof.
  unfold IsUnlockable.
  change kNotAchievable with (2 ^ 18). change kWasNotAchievable with (2 ^ 19).
  now rewrite !to_bool_land_pow2 by lia.
Qed.

Lemma IsUnlocked_bit (a : t) : IsUnlocked a = Z.testbit (flags a) 17.
Proof.
  unfold IsUnlocked. change kAchieved with (2 ^ 17).
  now rewrite to_bool_land_pow2 by lia.
Qed.

Lemma IsUnlockedOnline_bit (a : t) :
  IsUnlockedOnline a = Z.testbit (flags a) 16.
Proof.
  unfold IsUnlockedOnline. change kAchievedOnline with (2 ^ 16).
  now rewrite to_bool_land_pow2 by lia.
Qed.

Lemma Unlock_flags (host_time : Z) (online : bool) (a : t) :
  IsUnlockable a = true ->
  flags (Unlock host_time online a) =
    Z.lor (flags a)
          (if online then Z.lor kAchieved kAchievedOnline else kAchieved).
Proof.
  intros Hu. unfold Unlock. rewrite Hu. simpl.
  destruct online; simpl; [|reflexivity].
  now rewrite Z.lor_assoc.
Qed.

Lemma Unlock_keeps_unlockable (host_time : Z) (online : bool) (a : t) :
  IsUnlockable (Unlock host_time online a) = IsUnlockable a.
Proof.
  destruct (IsUnlockable a) eqn:Hu.
  - rewrite IsUnlockable_bits in *. rewrite Unlock_flags by now rewrite IsUnlockable_bits.
    rewrite !Z.lor_spec.
    destruct online; simpl; rewrite !orb_false_r; exact Hu.
  - unfold Unlock. now rewrite Hu.
Qed.

Lemma Lock_flags (a : t) :
  flags (Lock a) =
    Z.land (Z.land (flags a) (not32 kAchieved)) (not32 kAchievedOnline).
Proof. reflexivity. Qed.

Lemma Lock_other_bits (a : t) (n : Z) :
  0 <= n < 32 -> n <> 16 -> n <> 17 ->
  Z.testbit (flags (Lock a)) n = Z.testbit (flags a) n.
Proof.
  intros Hn H16 H17. rewrite Lock_flags, !Z.land_spec, !testbit_not32 by lia.
  change kAchieved with (2 ^ 17). change kAchievedOnline with (2 ^ 16).
  rewrite !Z.pow2_bits_eqb by lia.
  destruct (Z.eqb_spec 17 n); [lia|]. destruct (Z.eqb_spec 16 n); [lia|].
  simpl. now rewrite !andb_true_r.
Qed.

(** C2: [IsUnlockable()] is true exactly when the NotAchievable bit
    (0x40000, bit 18) is clear or the WasNotAchievable bit (0x80000,
    bit 19) is set.  An achievement with both bits set is unlockable, and
    setting or clearing the Achieved bit does not change the answer. *)
Theorem IsUnlockable_iff (a : t) :
  (IsUnlockable a = true <->
     Z.land (flags a) 0x40000 = 0 \/ Z.land (flags a) 0x80000 <> 0)
  /\ IsUnlockable a = negb (Z.testbit (flags a) 18) || Z.testbit (flags a) 19
  /\ IsUnlockable
       (with_flags (Z.lor (flags a) (Z.lor kNotAchievable kWasNotAchievable)) a)
     = true
  /\ IsUnlockable (with_flags (Z.lor (flags a) kAchieved) a) = IsUnlockable a
  /\ IsUnlockable (with_flags (Z.land (flags a) (not32 kAchieved)) a)
     = IsUnlockable a.
Proof.
  repeat split.
  - rewrite IsUnlockable_bits.
    change 0x40000 with (2 ^ 18). change 0x80000 with (2 ^ 19).
    rewrite !land_pow2_eq by lia. intros H.
    destruct (Z.testbit (flags a) 18), (Z.testbit (flags a) 19);
      simpl in H; try discriminate; (left; reflexivity) || (right; lia).
  - rewrite IsUnlockable_bits.
    change 0x40000 with (2 ^ 18). change 0x80000 with (2 ^ 19).
    rewrite !land_pow2_eq by lia.
    destruct (Z.testbit (flags a) 18), (Z.testbit (flags a) 19);
      simpl; intros [H|H]; try reflexivity; try discriminate; lia.
  - apply IsUnlockable_bits.
  - rewrite IsUnlockable_bits. cbn [flags with_flags].
    rewrite !Z.lor_spec. simpl. now rewrite !orb_true_r.
  - rewrite !IsUnlockable_bits. cbn [flags with_flags].
    rewrite !Z.lor_spec. simpl. now rewrite !orb_false_r.
  - rewrite !IsUnlockable_bits. cbn [flags with_flags].
    rewrite !Z.land_spec, !testbit_not32 by lia. simpl.
    now rewrite !andb_true_r.
Qed.

(** C1: [Unlock(online)] leaves the record as it is when
    [IsUnlockable()] is false.  Otherwise it sets the Achieved bit, ors in
    the AchievedOnline bit exactly when [online] is true (the bit keeps
    its old value when [online] is false), touches no other flag bit, and
    stores the host time read at the call in the unlock timestamp, whether
    or not the Achieved bit was set before: a second [Unlock] stamps the
    time again. *)
Theorem Unlock_spec (host_time : Z) (online : bool) (a : t) :
  let a' := Unlock host_time online a in
  if IsUnlockable a then
    IsUnlocked a' = true
    /\ IsUnlockedOnline a' = online || IsUnlockedOnline a
    /\ flags a' =
         Z.lor (flags a)
               (if online then Z.lor kAchieved kAchievedOnline else kAchieved)
    /\ unlock_time a' = host_time
    /\ (forall (later : Z) (online' : bool),
          unlock_time (Unlock later online' a') = later)
    /\ (id a', label a', description a', unachieved_desc a',
        image_id a', gamerscore a')
       = (id a, label a, description a, unachieved_desc a,
          image_id a, gamerscore a)
  else a' = a.
Proof.
  intros a'. subst a'. destruct (IsUnlockable a) eqn:Hu.
  - pose proof (Unlock_flags host_time online a Hu) as Hf.
    repeat split.
    + rewrite IsUnlocked_bit, Hf, Z.lor_spec.
      destruct online; simpl; rewrite ?Z.lor_spec; simpl;
        now rewrite ?orb_true_r.
    + rewrite !IsUnlockedOnline_bit, Hf, Z.lor_spec.
      destruct online; simpl; rewrite ?Z.lor_spec; simpl.
      * now rewrite orb_true_r.
      * now rewrite orb_false_r.
    + exact Hf.
    + unfold Unlock. now rewrite Hu.
    + intros later online'.
      pose proof (Unlock_keeps_unlockable host_time online a) as Hk.
      rewrite Hu in Hk. unfold Unlock at 1. now rewrite Hk.
    + unfold Unlock. rewrite Hu. now destruct online.
  - unfold Unlock. now rewrite Hu.
Qed.

(** C9: [Lock()] clears the Achieved and AchievedOnline bits and sets the
    unlock timestamp to zero, whatever the record held before, and changes
    nothing else: the flags word becomes [flags & 0xFFFCFFFF] and every
    other member is kept.  After [Unlock(online)] followed by [Lock()],
    [IsUnlocked()] and [IsUnlockedOnline()] are false and the timestamp is
    0; the record is the one [Lock()] alone leaves. *)
Theorem Lock_spec (a : t) :
  Z.testbit (flags (Lock a)) 17 = false
  /\ Z.testbit (flags (Lock a)) 16 = false
  /\ IsUnlocked (Lock a) = false
  /\ IsUnlockedOnline (Lock a) = false
  /\ unlock_time (Lock a) = 0
  /\ (forall (host_time : Z) (online : bool),
       IsUnlocked (Lock (Unlock host_time online a)) = false
       /\ IsUnlockedOnline (Lock (Unlock host_time online a)) = false
       /\ unlock_time (Lock (Unlock host_time online a)) = 0)
  /\ Lock a
     = mk (id a) (label a) (description a) (unachieved_desc a)
          (image_id a) (gamerscore a) (Z.land (flags a) 0xFFFCFFFF) 0
  /\ (forall n : Z,
        Z.testbit (flags (Lock a)) n
        = Z.testbit (flags a) n
          && (0 <=? n) && (n <? 32) && negb (n =? 16) && negb (n =? 17))
  /\ (forall (host_time : Z) (online : bool),
        Lock (Unlock host_time online a) = Lock a).
Proof.
  assert (H17 : forall b, Z.testbit (flags (Lock b)) 17 = false).
  { intros b. rewrite Lock_flags, !Z.land_spec, !testbit_not32 by lia.
    simpl. now rewrite andb_false_r. }
  assert (H16 : forall b, Z.testbit (flags (Lock b)) 16 = false).
  { intros b. rewrite Lock_flags, !Z.land_spec, !testbit_not32 by lia.
    simpl. now rewrite andb_false_r. }
  assert (Hmask : forall f,
             Z.land (Z.land f (not32 kAchieved)) (not32 kAchievedOnline)
             = Z.land f 0xFFFCFFFF).
  { intros f. rewrite <- Z.land_assoc. reflexivity. }
  assert (Hrec : forall b,
             Lock b = mk (id b) (label b) (description b) (unachieved_desc b)
                         (image_id b) (gamerscore b)
                         (Z.land (flags b) 0xFFFCFFFF) 0).
  { intros b. unfold Lock, with_unlock_time, with_flags.
    cbn [id label description unachieved_desc image_id gamerscore flags
         unlock_time].
    now rewrite Hmask. }
  repeat match goal with |- _ /\ _ => split end;
    rewrite ?IsUnlocked_bit, ?IsUnlockedOnline_bit; auto.
  - intros host_time online.
    rewrite ?IsUnlocked_bit, ?IsUnlockedOnline_bit. auto.
  - intros n. rewrite Hrec. cbn [flags]. rewrite Z.land_spec.
    destruct (Z.leb_spec 0 n) as [Hn|Hn].
    + change 0xFFFCFFFF
        with (Z.land (Z.ones 32) (Z.land (not32 kAchieved)
                                         (not32 kAchievedOnline))).
      rewrite !Z.land_spec, Z.testbit_ones_nonneg by lia.
      destruct (Z.ltb_spec n 32) as [Hlt|Hge].
      * rewrite !testbit_not32 by lia.
        change kAchieved with (2 ^ 17). change kAchievedOnline with (2 ^ 16).
        rewrite !Z.pow2_bits_eqb by lia.
        rewrite (Z.eqb_sym 17 n), (Z.eqb_sym 16 n).
        destruct (Z.testbit (flags a) n), (n =? 16), (n =? 17); reflexivity.
      * cbn [andb]. now rewrite !andb_false_r.
    + rewrite !Z.testbit_neg_r by lia. reflexivity.
  - intros host_time online. rewrite !Hrec.
    destruct (IsUnlockable a) eqn:Hu.
    + rewrite (Unlock_flags host_time online a Hu).
      unfold Unlock. rewrite Hu. cbn [negb].
      assert (Hf : Z.land
                     (Z.lor (flags a)
                        (if online then Z.lor kAchieved kAchievedOnline
                         else kAchieved)) 0xFFFCFFFF
                   = Z.land (flags a) 0xFFFCFFFF).
      { rewrite Z.land_lor_distr_l. destruct online; cbn; apply Z.lor_0_r. }
      rewrite Hf. now destruct online.
    + unfold Unlock. now rewrite Hu.
Qed.
End AchievementState.

(** ** Byte order *)

(** [halves v]: a 16-bit [v] splits into a high and a low byte. *)
Ltac halves v :=
  let Hdm := fresh "Hdm" in
  let Hr := fresh "Hr" in
  let Hq := fresh "Hq" in
  pose proof (Z.div_mod v 256 ltac:(lia)) as Hdm;
  pose proof (Z.mod_pos_bound v 256 ltac:(lia)) as Hr;
  assert (Hq : 0 <= v / 256 < 256) by lia.

Lemma lor_disjoint_halves (h x : Z) :
  0 <= h < 2 ^ 8 -> Z.lor h (x * 2 ^ 8) = h + x * 2 ^ 8.
Proof.
  intros Hh.
  assert (Hland : Z.land h (x * 2 ^ 8) = 0).
  { apply Z.bits_inj'. intros n Hn. rewrite Z.land_spec, Z.bits_0.
    destruct (Z.lt_ge_cases n 8) as [Hlt|Hge].
    - rewrite (Z.mul_pow2_bits_low x 8 n) by lia. apply andb_false_r.
    - rewrite <- (Z.mod_small h (2 ^ 8)) by lia.
      now rewrite Z.mod_pow2_bits_high by lia. }
  rewrite <- Z.lxor_lor by exact Hland.
  symmetry. now apply Z.add_nocarry_lxor.
Qed.

Lemma byte_swap_arith (v : Z) :
  is_wchar v -> byte_swap v = (v mod 256) * 256 + v / 256.
Proof.
  unfold is_wchar, byte_swap, to_uint16. intros Hv. halves v.
  rewrite Z.shiftr_div_pow2, Z.shiftl_mul_pow2 by lia.
  rewrite lor_disjoint_halves by (change (2 ^ 8) with 256; lia).
  change (2 ^ 8) with 256. change (2 ^ 16) with 65536.
  symmetry. apply (Z.mod_unique _ _ (v / 256)); lia.
Qed.

Lemma byte_swap_range (v : Z) : is_wchar v -> is_wchar (byte_swap v).
Proof.
  intros Hv. rewrite byte_swap_arith by exact Hv. unfold is_wchar in *.
  halves v. lia.
Qed.

Lemma byte_swap_involutive (v : Z) :
  is_wchar v -> byte_swap (byte_swap v) = v.
Proof.
  intros Hv. rewrite (byte_swap_arith (byte_swap v)) by now apply byte_swap_range.
  rewrite byte_swap_arith by exact Hv. unfold is_wchar in Hv. halves v.
  assert (Hm : (v mod 256 * 256 + v / 256) mod 256 = v / 256)
    by (symmetry; apply (Z.mod_unique _ _ (v mod 256)); lia).
  assert (Hd : (v mod 256 * 256 + v / 256) / 256 = v mod 256)
    by (symmetry; apply (Z.div_unique _ _ _ (v / 256)); lia).
  rewrite Hm, Hd. lia.
Qed.

Lemma byte_swap_zero_iff (v : Z) : is_wchar v -> byte_swap v = 0 <-> v = 0.
Proof.
  intros Hv. split.
  - intros H0. rewrite <- (byte_swap_involutive v Hv), H0. reflexivity.
  - intros ->. reflexivity.
Qed.

(** What [copy_and_swap] stores for one code unit: its big-endian bytes. *)
Lemma store_swapped (c : Z) :
  is_wchar c -> store_wchar (byte_swap c) = [c / 256; c mod 256].
Proof.
  intros Hc. unfold store_wchar. rewrite byte_swap_arith by exact Hc.
  unfold is_wchar in Hc. halves c.
  f_equal; [|f_equal].
  - symmetry. apply (Z.mod_unique _ _ (c mod 256)); lia.
  - symmetry. apply (Z.div_unique _ _ _ (c / 256)); lia.
Qed.

(** What a scan reads from big-endian bytes: the code unit itself. *)
Lemma swap_loaded (c : Z) :
  is_wchar c -> byte_swap (load_wchar (c / 256) (c mod 256)) = c.
Proof.
  intros Hc. unfold load_wchar.
  replace (c / 256 + c mod 256 * 256) with (byte_swap c)
    by (rewrite byte_swap_arith by exact Hc; lia).
  now apply byte_swap_involutive.
Qed.

Lemma load_stored (c : Z) :
  load_wchar (c mod 256) (c / 256) = c.
Proof.
  unfold load_wchar. pose proof (Z.div_mod c 256 ltac:(lia)). lia.
Qed.

(** ** Buffers *)

Lemma length_be_bytes (s : wstring) :
  length (be_bytes s) = (2 * length s)%nat.
Proof. induction s as [|c s IH]; simpl; [reflexivity | rewrite IH; lia]. Qed.

Lemma be_bytes_are_bytes (s : wstring) :
  wf_wstring s -> Forall is_byte (be_bytes s).
Proof.
  induction 1 as [|c s Hc Hs IH]; [constructor|].
  cbn [be_bytes flat_map app]. unfold is_wchar in Hc. halves c.
  repeat constructor; try lia. exact IH.
Qed.

Lemma swapped_bytes (s : wstring) :
  wf_wstring s ->
  flat_map (fun c => store_wchar (byte_swap c)) s = be_bytes s.
Proof.
  induction 1 as [|c s Hc Hs IH]; [reflexivity|].
  cbn [flat_map be_bytes]. rewrite IH, store_swapped by exact Hc. reflexivity.
Qed.

Lemma write_bytes_front (bytes buf : list Z) :
  (length bytes <= length buf)%nat ->
  write_bytes 0 bytes buf = Ok (bytes ++ drop (length bytes) buf).
Proof.
  intros Hlen. unfold write_bytes.
  destruct (Z.leb_spec (0 + Z.of_nat (length bytes)) (Z.of_nat (length buf)));
    [|lia].
  reflexivity.
Qed.

Lemma write_bytes_back (bytes front old : list Z) :
  length old = length bytes ->
  write_bytes (Z.of_nat (length front)) bytes (front ++ old)
  = Ok (front ++ bytes).
Proof.
  intros Hlen. unfold write_bytes. rewrite length_app.
  destruct (Z.leb_spec 0 (Z.of_nat (length front))); [|lia].
  destruct (Z.leb_spec (Z.of_nat (length front) + Z.of_nat (length bytes))
                       (Z.of_nat (length front + length old))); [|lia].
  cbn [andb]. rewrite Nat2Z.id, take_app_length.
  rewrite drop_ge by (rewrite length_app; lia).
  now rewrite app_nil_r.
Qed.

Lemma copy_and_swap_c_str (dest : list Z) (s : wstring) :
  wf_wstring s -> (2 * length s <= length dest)%nat ->
  copy_and_swap dest (c_str s) (length s)
  = Ok (be_bytes s ++ drop (2 * length s) dest).
Proof.
  intros Hs Hlen. unfold copy_and_swap, c_str.
  rewrite length_app. cbn [length].
  destruct (Nat.leb_spec (length s) (length s + 1)); [|lia].
  rewrite take_app_length, swapped_bytes by exact Hs.
  rewrite write_bytes_front by (rewrite length_be_bytes; exact Hlen).
  now rewrite length_be_bytes.
Qed.

(** ** Scanning for the terminator *)

Lemma ReadNullTermString_be_bytes (s : wstring) (rest : list Z) :
  wf_wstring s -> no_null s ->
  ReadNullTermString (be_bytes s ++ 0 :: 0 :: rest) = Ok s.
Proof.
  intros Hwf Hnn. induction s as [|c s IH]; [reflexivity|].
  apply Forall_cons in Hwf as [Hc Hwf]. apply Forall_cons in Hnn as [Hc0 Hnn].
  cbn [be_bytes flat_map app ReadNullTermString].
  fold (be_bytes s). rewrite swap_loaded by exact Hc.
  destruct (Z.eqb_spec c 0); [contradiction|].
  now rewrite IH.
Qed.

Lemma has_terminator_short (s : wstring) (rest : list Z) (n : nat) :
  wf_wstring s -> no_null s -> (n < 2 * length s + 2)%nat ->
  has_terminator (take n (be_bytes s ++ 0 :: 0 :: rest)) = false.
Proof.
  intros Hwf Hnn. revert n. induction s as [|c s IH]; intros n Hn.
  - destruct n as [|[|n]]; [reflexivity | reflexivity | simpl in Hn; lia].
  - apply Forall_cons in Hwf as [Hc Hwf]. apply Forall_cons in Hnn as [Hc0 Hnn].
    cbn [be_bytes flat_map app]. fold (be_bytes s).
    destruct n as [|[|n]]; [reflexivity | reflexivity |].
    cbn [take firstn]. unfold has_terminator. cbn [load_wchars existsb].
    rewrite swap_loaded by exact Hc.
    destruct (Z.eqb_spec c 0); [contradiction|].
    cbn [orb]. apply IH; [assumption | assumption | simpl in Hn; lia].
Qed.

Lemma wstring_of_c_str_units (s : wstring) (rest : list Z) :
  no_null s -> wstring_of_c_str (s ++ 0 :: rest) = Ok s.
Proof.
  induction 1 as [|c s Hc Hs IH]; [reflexivity|].
  cbn [app wstring_of_c_str].
  destruct (Z.eqb_spec c 0); [contradiction|]. now rewrite IH.
Qed.

Lemma drop_past_string (s : wstring) (rest : list Z) :
  drop (length s * 2 + 2) (be_bytes s ++ 0 :: 0 :: rest) = rest.
Proof.
  change (be_bytes s ++ 0 :: 0 :: rest) with (be_bytes s ++ [0; 0] ++ rest).
  rewrite app_assoc. apply drop_app_length'.
  rewrite length_app, length_be_bytes. simpl. lia.
Qed.

(** ** Decoding records *)

(** C3, as stated, fails: the name of [sample_title_src] and the label of
    [sample_achievement_src] have no terminator inside the entry's four
    trailing bytes, and both decodes return a record whose string runs on
    into the bytes after the range. *)
Lemma ReadGPD_reads_past_range :
  has_terminator (take 4 (trailing sample_title_src)) = false
  /\ TitlePlayed.ReadGPD sample_title_src
     = Ok (TitlePlayed.mk 0x4D5307E6 [65; 66; 67] 50 12 1000 240 0
             (AvatarAwards 1 3) (AvatarAwards 0 1) (AvatarAwards 1 2) 0
             0x01D2C8F4A1B2C3D4)
  /\ has_terminator (take 4 (trailing sample_achievement_src)) = false
  /\ Achievement.ReadGPD sample_achievement_src
     = Ok (Achievement.mk 7 [65; 66; 67] [68] [69] 32 25 0x100003 0).
Proof. repeat split; vm_compute; reflexivity. Qed.

(** C3, amended: a decode takes no entry length and checks none.
    [ReadNullTermString] scans from its pointer to the first zero code unit
    in memory.  When the bytes at the pointer are the big-endian code units
    of a string and its terminator, the decode returns that string, also
    when the entry's byte range (the first [n] trailing bytes) ends before
    the terminator; no error is reported. *)
Theorem ReadGPD_scans_to_terminator
    (ht : X_XDBF_GPD_TITLEPLAYED.t) (ha : X_XDBF_GPD_ACHIEVEMENT.t)
    (name lbl desc undesc : wstring) (rest : list Z) (n : nat) :
  wf_wstring name -> no_null name ->
  wf_wstring lbl -> no_null lbl ->
  wf_wstring desc -> no_null desc ->
  wf_wstring undesc -> no_null undesc ->
  (n < 2 * length name + 2)%nat -> (n < 2 * length lbl + 2)%nat ->
  let title_mem := be_bytes name ++ 0 :: 0 :: rest in
  let ach_mem :=
    be_bytes lbl ++ 0 :: 0 :: be_bytes desc ++ 0 :: 0
      :: be_bytes undesc ++ 0 :: 0 :: rest in
  has_terminator (take n title_mem) = false
  /\ ReadNullTermString title_mem = Ok name
  /\ (exists t, TitlePlayed.ReadGPD (AtPtr ht title_mem) = Ok t
                /\ TitlePlayed.title_name t = name)
  /\ has_terminator (take n ach_mem) = false
  /\ (exists a, Achievement.ReadGPD (AtPtr ha ach_mem) = Ok a
                /\ Achievement.label a = lbl
                /\ Achievement.description a = desc
                /\ Achievement.unachieved_desc a = undesc).
Proof.
  intros Hn1 Hn2 Hl1 Hl2 Hd1 Hd2 Hu1 Hu2 Hname Hlbl title_mem ach_mem.
  subst title_mem ach_mem. repeat split.
  - now apply has_terminator_short.
  - now apply ReadNullTermString_be_bytes.
  - unfold TitlePlayed.ReadGPD. cbn [header trailing].
    rewrite ReadNullTermString_be_bytes by assumption.
    eexists. split; reflexivity.
  - now apply has_terminator_short.
  - unfold Achievement.ReadGPD. cbn [header trailing].
    rewrite ReadNullTermString_be_bytes by assumption.
    cbn [mbind outcome_bind]. rewrite drop_past_string.
    rewrite ReadNullTermString_be_bytes by assumption.
    cbn [mbind outcome_bind]. rewrite drop_past_string.
    rewrite ReadNullTermString_be_bytes by assumption.
    eexists. repeat split; reflexivity.
Qed.

Lemma ReadGPD_scans_to_terminator_witness :
  has_terminator (take 4 (trailing sample_title_src)) = false
  /\ ReadNullTermString (trailing sample_title_src) = Ok [65; 66; 67]
  /\ (exists t, TitlePlayed.ReadGPD sample_title_src = Ok t
                /\ TitlePlayed.title_name t = [65; 66; 67])
  /\ has_terminator (take 4 (trailing sample_achievement_src)) = false
  /\ (exists a, Achievement.ReadGPD sample_achievement_src = Ok a
                /\ Achievement.label a = [65; 66; 67]
                /\ Achievement.description a = [68]
                /\ Achievement.unachieved_desc a = [69]).
Proof.
  apply (ReadGPD_scans_to_terminator
           sample_title_header sample_achievement_header
           [65; 66; 67] [65; 66; 67] [68] [69] [] 4);
    try (repeat constructor; unfold is_wchar; lia); simpl; lia.
Defined.

(** ** Encoding a title-played record *)

(** C4, as stated, fails: [WriteGPD] of [sample_title] (name "X") into
    [stale_dest] stores the header and the two bytes of the name; the two
    bytes after the name are the ones the destination held before, and no
    zero code unit is in the destination after the call. *)
Lemma WriteGPD_writes_no_terminator :
  TitlePlayed.WriteGPD sample_title stale_dest
  = Ok (AtPtr (TitlePlayed.to_header sample_title) [0; 88; 255; 255])
  /\ has_terminator [0; 88; 255; 255] = false
  /\ ReadNullTermString [0; 88; 255; 255] = Fault OutOfBounds.
Proof. repeat split; vm_compute; reflexivity. Qed.

(** C4, amended: [WriteGPD] stores the fixed header fields and, right
    after the header, the code units of the title name in big-endian byte
    order, and nothing else: every byte after the last code unit of the
    name is left as the destination held it. *)
Theorem WriteGPD_spec
    (self : TitlePlayed.t) (dest : at_ptr X_XDBF_GPD_TITLEPLAYED.t) :
  wf_wstring (TitlePlayed.title_name self) ->
  (2 * length (TitlePlayed.title_name self) <= length (trailing dest))%nat ->
  TitlePlayed.WriteGPD self dest
  = Ok (AtPtr
          (X_XDBF_GPD_TITLEPLAYED.mk
             (TitlePlayed.title_id self)
             (TitlePlayed.achievements_possible self)
             (TitlePlayed.achievements_earned self)
             (TitlePlayed.gamerscore_total self)
             (TitlePlayed.gamerscore_earned self)
             (TitlePlayed.reserved_achievement_count self)
             (TitlePlayed.all_avatar_awards self)
             (TitlePlayed.male_avatar_awards self)
             (TitlePlayed.female_avatar_awards self)
             (TitlePlayed.reserved_flags self)
             (TitlePlayed.last_played self))
          (be_bytes (TitlePlayed.title_name self)
             ++ drop (2 * length (TitlePlayed.title_name self))
                     (trailing dest))).
Proof.
  intros Hwf Hlen. unfold TitlePlayed.WriteGPD.
  rewrite copy_and_swap_c_str by assumption. reflexivity.
Qed.

Lemma WriteGPD_spec_witness :
  TitlePlayed.WriteGPD sample_title stale_dest
  = Ok (AtPtr
          (X_XDBF_GPD_TITLEPLAYED.mk 0x4D5307E6 50 12 1000 240 0
             (AvatarAwards 1 3) (AvatarAwards 0 1) (AvatarAwards 1 2) 0
             0x01D2C8F4A1B2C3D4)
          ([0; 88] ++ [255; 255])).
Proof.
  apply (WriteGPD_spec sample_title stale_dest).
  - repeat constructor; unfold is_wchar; lia.
  - simpl. lia.
Defined.

(** A destination that was zero-filled beforehand does end up holding a
    terminated name: the terminator is the buffer's own zero. *)
Lemma WriteGPD_into_zeroed
    (self : TitlePlayed.t) (h : X_XDBF_GPD_TITLEPLAYED.t) (room : nat) :
  wf_wstring (TitlePlayed.title_name self) ->
  TitlePlayed.WriteGPD self
    (AtPtr h (replicate (2 * length (TitlePlayed.title_name self) + room) 0))
  = Ok (AtPtr (TitlePlayed.to_header self)
              (be_bytes (TitlePlayed.title_name self) ++ replicate room 0)).
Proof.
  intros Hwf. unfold TitlePlayed.WriteGPD. cbn [trailing].
  rewrite copy_and_swap_c_str by (rewrite ?length_replicate; auto with lia).
  now rewrite drop_replicate_add.
Qed.

(** ** Code units in a byte buffer *)

Lemma load_wchars_be_bytes (s : wstring) (rest : list Z) :
  wf_wstring s ->
  load_wchars (be_bytes s ++ rest) = map byte_swap s ++ load_wchars rest.
Proof.
  induction 1 as [|c s Hc Hs IH]; [reflexivity|].
  cbn [be_bytes flat_map app load_wchars map]. fold (be_bytes s).
  rewrite IH. f_equal. unfold load_wchar.
  rewrite byte_swap_arith by exact Hc. lia.
Qed.

Lemma load_wchars_le_bytes (s : wstring) (rest : list Z) :
  load_wchars (le_bytes s ++ rest) = s ++ load_wchars rest.
Proof.
  induction s as [|c s IH]; [reflexivity|].
  cbn [le_bytes flat_map store_wchar app load_wchars]. fold (le_bytes s).
  now rewrite IH, load_stored.
Qed.

Lemma length_le_bytes (s : wstring) :
  length (le_bytes s) = (2 * length s)%nat.
Proof. induction s as [|c s IH]; simpl; [reflexivity | rewrite IH; lia]. Qed.

Lemma swap_back_bytes (s : wstring) :
  wf_wstring s ->
  flat_map (fun c => store_wchar (byte_swap c)) (map byte_swap s) = le_bytes s.
Proof.
  induction 1 as [|c s Hc Hs IH]; [reflexivity|].
  cbn [map flat_map le_bytes]. rewrite IH, byte_swap_involutive by exact Hc.
  reflexivity.
Qed.

(** ** The inline payload *)

Lemma get4_set4 (x : Z) (v : X_XUSER_DATA.t) :
  0 <= x < 2 ^ 32 -> X_XUSER_DATA.get4 (X_XUSER_DATA.set4 x v) = x.
Proof.
  intros Hx. unfold X_XUSER_DATA.get4, X_XUSER_DATA.set4, to_uint32.
  cbn [X_XUSER_DATA.payload]. rewrite (Z.mod_small x) by exact Hx.
  pose proof (Z.mod_pos_bound (X_XUSER_DATA.payload v) (2 ^ 32) ltac:(lia)).
  symmetry. apply (Z.div_unique _ _ _ (X_XUSER_DATA.payload v mod 2 ^ 32)); lia.
Qed.

Lemma get8_set8 (x : Z) (v : X_XUSER_DATA.t) :
  X_XUSER_DATA.get8 (X_XUSER_DATA.set8 x v) = to_uint64 x.
Proof. reflexivity. Qed.

(** ** Settings *)

Section SettingValues.
Import Setting.

Variable XPROFILEID_TYPE : Z -> X_XUSER_DATA_TYPE.


Lemma type_matches_set (ty : X_XUSER_DATA_TYPE) (self : t) :
  type_matches XPROFILEID_TYPE
    (with_value (X_XUSER_DATA.set_type ty (value self)) self)
  = bool_decide (XPROFILEID_TYPE (id self) = ty).
Proof. reflexivity. Qed.

(** What [Value(const std::wstring&)] leaves when the id mandates Unicode
    and the encoded length fits the 32-bit length field. *)
Lemma Value_wstring_result (s : wstring) (self : t) :
  XPROFILEID_TYPE (id self) = kUnicode ->
  wf_wstring s ->
  Z.of_nat ((length s + 1) * sizeof_wchar_t) < 2 ^ 32 ->
  Value_wstring XPROFILEID_TYPE s self
  = Ok (mk (id self)
           (X_XUSER_DATA.mk kUnicode (Z.of_nat ((length s + 1) * sizeof_wchar_t) * 2 ^ 32))
           (be_bytes s ++ [0; 0])).
Proof.
  intros Hty Hwf Hfit. unfold Value_wstring.
  rewrite type_matches_set, Hty, bool_decide_eq_true_2 by reflexivity.
  cbn [assert mbind outcome_bind with_value value id extraData].
  assert (Hsz : 0 <= Z.of_nat ((length s + 1) * sizeof_wchar_t) < 2 ^ 32) by lia.
  assert (Hu : to_uint32 (Z.of_nat ((length s + 1) * sizeof_wchar_t)) = Z.of_nat ((length s + 1) * sizeof_wchar_t))
    by (apply Z.mod_small; lia).
  rewrite !Hu, get4_set4 by lia.
  set (buf := resize (Z.to_nat (Z.of_nat ((length s + 1) * sizeof_wchar_t))) 0 (extraData self)).
  assert (Hbuf : length buf = (2 * length s + 2)%nat).
  { subst buf. rewrite length_resize. unfold sizeof_wchar_t. lia. }
  rewrite copy_and_swap_c_str by (auto; lia).
  cbn [mbind outcome_bind].
  replace (Z.of_nat ((length s + 1) * sizeof_wchar_t) - 2) with (Z.of_nat (length (be_bytes s)))
    by (rewrite length_be_bytes; unfold sizeof_wchar_t; lia).
  rewrite write_bytes_back
    by (rewrite length_drop, Hbuf; simpl; lia).
  cbn [mbind outcome_bind mret outcome_ret with_extraData id value].
  unfold X_XUSER_DATA.set4, X_XUSER_DATA.set8, X_XUSER_DATA.set_type.
  cbn [X_XUSER_DATA.type X_XUSER_DATA.payload].
  rewrite Hu. change (store_wchar 0) with [0; 0].
  unfold mret, outcome_ret, with_extraData, with_value.
  cbn [id value extraData].
  change (to_uint64 0 mod 2 ^ 32) with 0. now rewrite Z.add_0_r.
Qed.

Lemma ValueString_be_bytes (s : wstring) (i p : Z) :
  wf_wstring s -> no_null s ->
  ValueString (mk i (X_XUSER_DATA.mk kUnicode p) (be_bytes s ++ [0; 0]))
  = Ok s.
Proof.
  intros Hwf Hnn. unfold ValueString, sizeof_wchar_t.
  cbn [assert mbind outcome_bind value extraData X_XUSER_DATA.type].
  rewrite bool_decide_eq_true_2 by reflexivity. cbn [assert].
  rewrite load_wchars_be_bytes by exact Hwf.
  change (load_wchars [0; 0]) with [0].
  assert (Hlen : length (be_bytes s ++ [0; 0]) = ((length s + 1) * 2)%nat)
    by (rewrite length_app, length_be_bytes; simpl; lia).
  rewrite Hlen, Nat.div_mul by lia.
  unfold copy_and_swap. rewrite length_app, length_map. cbn [length].
  destruct (Nat.leb_spec (length s + 1) (length s + 1)); [|lia].
  rewrite take_ge by (rewrite length_app, length_map; simpl; lia).
  rewrite flat_map_app, swap_back_bytes by exact Hwf.
  change (flat_map _ [0]) with [0; 0].
  rewrite write_bytes_front
    by (rewrite length_app, length_le_bytes, length_resize; simpl; lia).
  rewrite drop_ge
    by (rewrite length_app, length_le_bytes, length_resize; simpl; lia).
  cbn [mbind outcome_bind]. rewrite app_nil_r, load_wchars_le_bytes.
  change (load_wchars [0; 0]) with [0].
  now apply wstring_of_c_str_units.
Qed.

Lemma write_bytes_fault (off : Z) (bytes buf : list Z) (f : fault) :
  write_bytes off bytes buf = Fault f -> f = OutOfBounds.
Proof.
  unfold write_bytes. destruct (_ && _); [discriminate | congruence].
Qed.

Lemma copy_and_swap_fault (dest src : list Z) (count : nat) (f : fault) :
  copy_and_swap dest src count = Fault f -> f = OutOfBounds.
Proof.
  unfold copy_and_swap. destruct (_ <=? _)%nat; [|congruence].
  apply write_bytes_fault.
Qed.

(** Past its assertion, [Value(const std::wstring&)] has no other
    assertion to fail. *)
Lemma Value_wstring_assertion (s : wstring) (self : t) :
  Value_wstring XPROFILEID_TYPE s self = Fault AssertionFailure
  <-> XPROFILEID_TYPE (id self) <> kUnicode.
Proof.
  unfold Value_wstring. rewrite type_matches_set.
  destruct (decide (XPROFILEID_TYPE (id self) = kUnicode)) as [Heq|Hne].
  - rewrite bool_decide_eq_true_2 by exact Heq. cbn [assert mbind outcome_bind].
    split; [|contradiction]. intros Hf. exfalso.
    destruct (copy_and_swap _ _ _) as [buf|f] eqn:Hcopy.
    + cbn [mbind outcome_bind] in Hf.
      destruct (write_bytes _ _ buf) as [buf'|f] eqn:Hwrite.
      * discriminate Hf.
      * apply write_bytes_fault in Hwrite. cbn in Hf. congruence.
    + apply copy_and_swap_fault in Hcopy. cbn in Hf. congruence.
  - rewrite bool_decide_eq_false_2 by exact Hne. split; [auto | reflexivity].
Qed.

(** Each scalar overload, as a function of the mandated type. *)
Lemma Value_uint32_eq (new_value : Z) (self : t) :
  Value_uint32 XPROFILEID_TYPE new_value self
  = if bool_decide (XPROFILEID_TYPE (id self) = kInt32)
    then Ok (mk (id self)
                (X_XUSER_DATA.set4 new_value
                   (X_XUSER_DATA.set_type kInt32 (value self))) [])
    else Fault AssertionFailure.
Proof.
  unfold Value_uint32. rewrite type_matches_set.
  case_bool_decide; reflexivity.
Qed.

Lemma Value_float_eq (new_value : Z) (self : t) :
  Value_float XPROFILEID_TYPE new_value self
  = if bool_decide (XPROFILEID_TYPE (id self) = kFloat)
    then Ok (mk (id self)
                (X_XUSER_DATA.set4 new_value
                   (X_XUSER_DATA.set_type kFloat (value self))) [])
    else Fault AssertionFailure.
Proof.
  unfold Value_float. rewrite type_matches_set.
  case_bool_decide; reflexivity.
Qed.

Lemma Value_double_eq (new_value : Z) (self : t) :
  Value_double XPROFILEID_TYPE new_value self
  = if bool_decide (XPROFILEID_TYPE (id self) = kDouble)
    then Ok (mk (id self) (X_XUSER_DATA.mk kDouble (to_uint64 new_value)) [])
    else Fault AssertionFailure.
Proof.
  unfold Value_double. rewrite type_matches_set.
  case_bool_decide; reflexivity.
Qed.

Lemma Value_uint64_eq (new_value : Z) (self : t) :
  Value_uint64 XPROFILEID_TYPE new_value self
  = if bool_decide (XPROFILEID_TYPE (id self) = kDateTime)
    then Ok (mk (id self) (X_XUSER_DATA.mk kDateTime (to_uint64 new_value)) [])
    else if bool_decide (XPROFILEID_TYPE (id self) = kInt64)
    then Ok (mk (id self) (X_XUSER_DATA.mk kInt64 (to_uint64 new_value)) [])
    else Fault AssertionFailure.
Proof.
  unfold Value_uint64. cbn [id with_value].
  case_bool_decide as Hdt.
  - rewrite type_matches_set, bool_decide_eq_true_2 by exact Hdt. reflexivity.
  - rewrite type_matches_set. case_bool_decide; reflexivity.
Qed.

(** Deciding a comparison of [XPROFILEID_TYPE id] with a type tag once
    the mandated type is known. *)
Ltac by_mandate i :=
  destruct (XPROFILEID_TYPE i) eqn:?;
  repeat case_bool_decide; try congruence;
  try (split; [intros; try discriminate; split; discriminate
              | try (intros [? ?]); intros; congruence]).

(** C5: [Value(uint64_t)] on a setting whose id mandates DateTime passes
    the assertion and leaves the type tag DateTime; on a setting whose id
    mandates Int64 it leaves the type tag Int64.  In both cases the
    payload holds the value and the out-of-line buffer is empty; any
    other mandated type fails the assertion. *)
Theorem Value_uint64_type (new_value : Z) (self : t) :
  match XPROFILEID_TYPE (id self) with
  | kDateTime =>
      Value_uint64 XPROFILEID_TYPE new_value self
      = Ok (mk (id self) (X_XUSER_DATA.mk kDateTime (to_uint64 new_value)) [])
  | kInt64 =>
      Value_uint64 XPROFILEID_TYPE new_value self
      = Ok (mk (id self) (X_XUSER_DATA.mk kInt64 (to_uint64 new_value)) [])
  | _ =>
      Value_uint64 XPROFILEID_TYPE new_value self = Fault AssertionFailure
  end.
Proof. rewrite Value_uint64_eq. by_mandate (id self). Qed.

(** C6, amended: an assignment through [Value(uint32_t)],
    [Value(uint64_t)], [Value(float)], [Value(double)] or
    [Value(const std::wstring&)], and a construction through one of the
    constructors that call them, fails its assertion exactly when the
    type mandated for the id differs from the tag the overload stores:
    Int32, Int64 (DateTime when the id mandates DateTime), Float, Double,
    Unicode. *)
Theorem Value_type_checked
    (self : t) (storage : X_XUSER_DATA.t) (i n32 n64 f32 f64 : Z)
    (s : wstring) :
  (Value_uint32 XPROFILEID_TYPE n32 self = Fault AssertionFailure
     <-> XPROFILEID_TYPE (id self) <> kInt32)
  /\ (Value_uint64 XPROFILEID_TYPE n64 self = Fault AssertionFailure
     <-> XPROFILEID_TYPE (id self) <> kInt64
         /\ XPROFILEID_TYPE (id self) <> kDateTime)
  /\ (Value_float XPROFILEID_TYPE f32 self = Fault AssertionFailure
     <-> XPROFILEID_TYPE (id self) <> kFloat)
  /\ (Value_double XPROFILEID_TYPE f64 self = Fault AssertionFailure
     <-> XPROFILEID_TYPE (id self) <> kDouble)
  /\ (Value_wstring XPROFILEID_TYPE s self = Fault AssertionFailure
     <-> XPROFILEID_TYPE (id self) <> kUnicode)
  /\ (Setting_uint32 XPROFILEID_TYPE storage i n32 = Fault AssertionFailure
     <-> XPROFILEID_TYPE i <> kInt32)
  /\ (Setting_uint64 XPROFILEID_TYPE storage i n64 = Fault AssertionFailure
     <-> XPROFILEID_TYPE i <> kInt64 /\ XPROFILEID_TYPE i <> kDateTime)
  /\ (Setting_float XPROFILEID_TYPE storage i f32 = Fault AssertionFailure
     <-> XPROFILEID_TYPE i <> kFloat)
  /\ (Setting_wstring XPROFILEID_TYPE storage i s = Fault AssertionFailure
     <-> XPROFILEID_TYPE i <> kUnicode).
Proof.
  unfold Setting_uint32, Setting_uint64, Setting_float, Setting_wstring.
  rewrite !Value_uint32_eq, !Value_uint64_eq, !Value_float_eq,
          !Value_double_eq, !Value_wstring_assertion.
  cbn [id]. repeat match goal with |- _ /\ _ => split end.
  - by_mandate (id self).
  - by_mandate (id self).
  - by_mandate (id self).
  - by_mandate (id self).
  - reflexivity.
  - by_mandate i.
  - by_mandate i.
  - by_mandate i.
  - reflexivity.
Qed.

(** C7: for a wide string [s] without embedded null characters, on a
    setting whose id mandates Unicode, [Value(s)] followed by
    [ValueString()] returns [s].  The string is one the format can hold:
    its encoded byte length, terminator included, fits the 32-bit length
    field that [Value] narrows it to. *)
Theorem Value_ValueString_roundtrip (s : wstring) (self : t) :
  XPROFILEID_TYPE (id self) = kUnicode ->
  wf_wstring s -> no_null s ->
  Z.of_nat ((length s + 1) * sizeof_wchar_t) < 2 ^ 32 ->
  exists self',
    Value_wstring XPROFILEID_TYPE s self = Ok self'
    /\ ValueString self' = Ok s.
Proof.
  intros Hty Hwf Hnn Hfit. eexists. split.
  - now apply Value_wstring_result.
  - now apply ValueString_be_bytes.
Qed.

(** C8: after [Value(s)] on a setting whose id mandates Unicode, the
    out-of-line buffer holds the code units of [s] in big-endian byte
    order followed by a zero code unit, and the length field holds the
    byte length of the buffer, [(n + 1) * sizeof(wchar_t)] for a string of
    [n] code units, whatever the buffer held before.  The string is one
    whose encoded byte length fits the 32-bit length field. *)
Theorem Value_wstring_encoding (s : wstring) (self : t) :
  XPROFILEID_TYPE (id self) = kUnicode ->
  wf_wstring s ->
  Z.of_nat ((length s + 1) * sizeof_wchar_t) < 2 ^ 32 ->
  exists self',
    Value_wstring XPROFILEID_TYPE s self = Ok self'
    /\ X_XUSER_DATA.type (value self') = kUnicode
    /\ extraData self' = be_bytes s ++ [0; 0]
    /\ X_XUSER_DATA.get4 (value self')
       = Z.of_nat ((length s + 1) * sizeof_wchar_t)
    /\ Z.of_nat (length (extraData self')) = X_XUSER_DATA.get4 (value self')
    /\ last (load_wchars (extraData self')) = Some 0
    /\ Forall is_byte (extraData self').
Proof.
  intros Hty Hwf Hfit. eexists. split; [now apply Value_wstring_result|].
  cbn [value extraData X_XUSER_DATA.type].
  assert (Hget : X_XUSER_DATA.get4
                   (X_XUSER_DATA.mk kUnicode
                      (Z.of_nat ((length s + 1) * sizeof_wchar_t) * 2 ^ 32))
                 = Z.of_nat ((length s + 1) * sizeof_wchar_t)).
  { unfold X_XUSER_DATA.get4. cbn [X_XUSER_DATA.payload].
    apply Z.div_mul. lia. }
  rewrite Hget. repeat split.
  - rewrite length_app, length_be_bytes. unfold sizeof_wchar_t. simpl. lia.
  - rewrite load_wchars_be_bytes by exact Hwf.
    change (load_wchars [0; 0]) with [0]. apply last_snoc.
  - apply Forall_app. split; [now apply be_bytes_are_bytes|].
    repeat constructor; lia.
Qed.

(** C10: the constructor from a list of bytes stores the id and the
    bytes and sets the type tag to Binary.  It consults no mandated type:
    it returns a setting for every id and every table, where the
    constructors from an integer, a float and a string fail their
    assertion as soon as the mandated type is another one than theirs. *)
Theorem Setting_binary_unchecked
    (storage : X_XUSER_DATA.t) (i : Z) (v : list Z)
    (n32 n64 f32 : Z) (s : wstring) :
  Setting_binary storage i v
  = Ok (mk i (X_XUSER_DATA.mk kBinary (X_XUSER_DATA.payload storage)) v)
  /\ (Setting_uint32 XPROFILEID_TYPE storage i n32 = Fault AssertionFailure
      <-> XPROFILEID_TYPE i <> kInt32)
  /\ (Setting_uint64 XPROFILEID_TYPE storage i n64 = Fault AssertionFailure
      <-> XPROFILEID_TYPE i <> kInt64 /\ XPROFILEID_TYPE i <> kDateTime)
  /\ (Setting_float XPROFILEID_TYPE storage i f32 = Fault AssertionFailure
      <-> XPROFILEID_TYPE i <> kFloat)
  /\ (Setting_wstring XPROFILEID_TYPE storage i s = Fault AssertionFailure
      <-> XPROFILEID_TYPE i <> kUnicode).
Proof.
  unfold Setting_uint32, Setting_uint64, Setting_float, Setting_wstring.
  rewrite !Value_uint32_eq, !Value_uint64_eq, !Value_float_eq,
          !Value_wstring_assertion.
  cbn [id]. repeat match goal with |- _ /\ _ => split end.
  - reflexivity.
  - by_mandate i.
  - by_mandate i.
  - by_mandate i.
  - reflexivity.
Qed.
End SettingValues.

(** ** Worked examples *)

(** C6, as stated, fails on two inputs: a list of bytes given for an id
    that mandates Int32 yields a Binary setting, and a 64-bit integer given
    for an id that mandates DateTime is taken. *)
Lemma mismatch_accepted :
  sample_mandate sample_int32_id = kInt32
  /\ Setting.Setting_binary sample_storage sample_int32_id [1; 2; 3]
     = Ok (Setting.mk sample_int32_id
             (X_XUSER_DATA.mk kBinary 0xCDCDCDCDCDCDCDCD) [1; 2; 3])
  /\ sample_mandate sample_datetime_id = kDateTime
  /\ Setting.Setting_uint64 sample_mandate sample_storage sample_datetime_id
       0x01D2C8F4A1B2C3D4
     = Ok (Setting.mk sample_datetime_id
             (X_XUSER_DATA.mk kDateTime 0x01D2C8F4A1B2C3D4) []).
Proof. repeat split; vm_compute; reflexivity. Qed.

(** A string given for an id that mandates Int32 fails the assertion, on
    construction and on assignment. *)
Example Int32_id_rejects_string :
  Setting.Setting_wstring sample_mandate sample_storage sample_int32_id
    [72; 105] = Fault AssertionFailure
  /\ Setting.Value_wstring sample_mandate [72; 105]
       (Setting.mk sample_int32_id (X_XUSER_DATA.mk kInt32 (5 * 2 ^ 32)) [])
     = Fault AssertionFailure.
Proof. split; vm_compute; reflexivity. Qed.

Lemma Value_ValueString_roundtrip_witness :
  exists self',
    Setting.Value_wstring sample_mandate [72; 105] sample_setting = Ok self'
    /\ Setting.ValueString self' = Ok [72; 105].
Proof.
  apply (Value_ValueString_roundtrip sample_mandate [72; 105] sample_setting).
  - reflexivity.
  - repeat constructor; unfold is_wchar; lia.
  - repeat constructor; lia.
  - vm_compute; reflexivity.
Defined.

Lemma Value_wstring_encoding_witness :
  exists self',
    Setting.Value_wstring sample_mandate [72; 105] sample_setting = Ok self'
    /\ X_XUSER_DATA.type (Setting.value self') = kUnicode
    /\ Setting.extraData self' = [0; 72; 0; 105] ++ [0; 0]
    /\ X_XUSER_DATA.get4 (Setting.value self') = 6
    /\ Z.of_nat (length (Setting.extraData self'))
       = X_XUSER_DATA.get4 (Setting.value self')
    /\ last (load_wchars (Setting.extraData self')) = Some 0
    /\ Forall is_byte (Setting.extraData self').
Proof.
  apply (Value_wstring_encoding sample_mandate [72; 105] sample_setting).
  - reflexivity.
  - repeat constructor; unfold is_wchar; lia.
  - vm_compute; reflexivity.
Defined.

Example Value_uint64_sample :
  Setting.Value_uint64 sample_mandate 0x01D2C8F4A1B2C3D4
    (Setting.mk sample_datetime_id sample_storage [1; 2])
  = Ok (Setting.mk sample_datetime_id
          (X_XUSER_DATA.mk kDateTime 0x01D2C8F4A1B2C3D4) [])
  /\ Setting.Value_uint64 sample_mandate 0x01D2C8F4A1B2C3D4
       (Setting.mk sample_int64_id sample_storage [1; 2])
     = Ok (Setting.mk sample_int64_id
             (X_XUSER_DATA.mk kInt64 0x01D2C8F4A1B2C3D4) [])
  /\ Setting.Value_uint64 sample_mandate 0x01D2C8F4A1B2C3D4
       (Setting.mk sample_int32_id sample_storage [1; 2])
     = Fault AssertionFailure.
Proof. repeat split; vm_compute; reflexivity. Qed.

Example Value_wstring_sample :
  Setting.Value_wstring sample_mandate [72; 105] sample_setting
  = Ok (Setting.mk sample_unicode_id (X_XUSER_DATA.mk kUnicode (6 * 2 ^ 32))
          [0; 72; 0; 105; 0; 0]).
Proof. vm_compute; reflexivity. Qed.

Example Unlock_sample :
  Achievement.Unlock 0x01D2C8F4A1B2C3D4 true
    (Achievement.mk 7 [65] [66] [67] 32 25 0x100003 0)
  = Achievement.mk 7 [65] [66] [67] 32 25 0x130003 0x01D2C8F4A1B2C3D4
  /\ Achievement.Unlock 0x01D2C8F4A1B2C3D4 true
       (Achievement.mk 7 [65] [66] [67] 32 25 0x140003 0)
     = Achievement.mk 7 [65] [66] [67] 32 25 0x140003 0
  /\ Achievement.Lock
       (Achievement.mk 7 [65] [66] [67] 32 25 0x130003 0x01D2C8F4A1B2C3D4)
     = Achievement.mk 7 [65] [66] [67] 32 25 0x100003 0.
Proof. repeat split; vm_compute; reflexivity. Qed.

(** * Further properties *)

(** ** Locking and unlocking, composed *)

Section AchievementAlgebra.
Import AchievementFlags Achievement.

Lemma to_bool_false (x : Z) : to_bool x = false -> x = 0.
Proof.
  unfold to_bool. destruct (Z.eqb_spec x 0); [auto | discriminate].
Qed.

(** What [Lock] leaves of a flags word. *)
Lemma Lock_mask (f : Z) :
  Z.land (Z.land f (not32 kAchieved)) (not32 kAchievedOnline)
  = Z.land f 0xFFFCFFFF.
Proof. rewrite <- Z.land_assoc. reflexivity. Qed.

Lemma Lock_eq (a : t) :
  Lock a = with_unlock_time 0 (with_flags (Z.land (flags a) 0xFFFCFFFF) a).
Proof.
  unfold Lock. cbn [flags with_flags]. rewrite Lock_mask. reflexivity.
Qed.

Lemma Unlock_eq (host_time : Z) (online : bool) (a : t) :
  Unlock host_time online a
  = if IsUnlockable a
    then with_unlock_time host_time
           (with_flags
              (Z.lor (flags a)
                 (if online then Z.lor kAchieved kAchievedOnline
                  else kAchieved)) a)
    else a.
Proof.
  unfold Unlock. destruct (IsUnlockable a); [|reflexivity]. cbn [negb].
  destruct online; [|reflexivity].
  unfold with_unlock_time, with_flags. cbn [flags id label description
    unachieved_desc image_id gamerscore unlock_time].
  now rewrite Z.lor_assoc.
Qed.

(** The bits [Unlock] sets are among the bits [Lock] clears. *)
Lemma unlock_bits_locked (online : bool) (f : Z) :
  Z.land (Z.lor f (if online then Z.lor kAchieved kAchievedOnline
                   else kAchieved)) 0xFFFCFFFF
  = Z.land f 0xFFFCFFFF.
Proof.
  rewrite Z.land_lor_distr_l.
  destruct online; cbn; apply Z.lor_0_r.
Qed.

Lemma Lock_after_Unlock (host_time : Z) (online : bool) (a : t) :
  Lock (Unlock host_time online a) = Lock a.
Proof.
  rewrite Unlock_eq. destruct (IsUnlockable a); [|reflexivity].
  rewrite !Lock_eq. unfold with_unlock_time, with_flags.
  cbn [flags id label description unachieved_desc image_id gamerscore
       unlock_time].
  now rewrite unlock_bits_locked.
Qed.

Lemma locked_flags_fixed (f : Z) :
  0 <= f < 2 ^ 32 ->
  Z.land f kAchieved = 0 -> Z.land f kAchievedOnline = 0 ->
  Z.land f 0xFFFCFFFF = f.
Proof.
  intros Hrange HA HO.
  assert (Hf : Z.land f (Z.ones 32) = f)
    by (rewrite Z.land_ones by lia; apply Z.mod_small; exact Hrange).
  rewrite <- Hf at 2.
  change (Z.ones 32) with (Z.lor 0xFFFCFFFF (Z.lor kAchieved kAchievedOnline)).
  rewrite !Z.land_lor_distr_r, HA, HO. cbn [Z.lor]. now rewrite Z.lor_0_r.
Qed.

(** X1: [Lock()] after [Unlock(online)] leaves what [Lock()] alone leaves,
    whether or not the achievement was unlockable; and [Lock()] twice is
    [Lock()] once. *)
Theorem Lock_absorbs_Unlock (host_time : Z) (online : bool) (a : t) :
  Lock (Unlock host_time online a) = Lock a
  /\ Lock (Lock a) = Lock a.
Proof.
  split; [apply Lock_after_Unlock|].
  rewrite !Lock_eq. unfold with_unlock_time, with_flags.
  cbn [flags id label description unachieved_desc image_id gamerscore
       unlock_time].
  rewrite <- Z.land_assoc. reflexivity.
Qed.

(** X2: two [Unlock] calls in a row act as one: the later time is the one
    kept, and the AchievedOnline bit is set when either call was online. *)
Theorem Unlock_twice (t1 t2 : Z) (o1 o2 : bool) (a : t) :
  Unlock t2 o2 (Unlock t1 o1 a) = Unlock t2 (o1 || o2) a.
Proof.
  rewrite (Unlock_eq t2 o2), Unlock_keeps_unlockable.
  rewrite (Unlock_eq t2 (o1 || o2)), (Unlock_eq t1 o1).
  destruct (IsUnlockable a); [|reflexivity].
  unfold with_unlock_time, with_flags.
  cbn [flags id label description unachieved_desc image_id gamerscore
       unlock_time].
  f_equal. rewrite <- Z.lor_assoc. f_equal.
  destruct o1, o2; reflexivity.
Qed.

(** X3: on a locked achievement (both status bits clear, timestamp zero,
    flags a 32-bit value), [Lock()] takes back what [Unlock(online)] did. *)
Theorem Lock_undoes_Unlock (host_time : Z) (online : bool) (a : t) :
  0 <= flags a < 2 ^ 32 ->
  IsUnlocked a = false -> IsUnlockedOnline a = false ->
  unlock_time a = 0 ->
  Lock (Unlock host_time online a) = a.
Proof.
  intros Hrange Hu Ho Ht. rewrite Lock_after_Unlock, Lock_eq.
  apply to_bool_false in Hu. apply to_bool_false in Ho.
  rewrite locked_flags_fixed by assumption.
  destruct a. cbn in *. subst. reflexivity.
Qed.

(** X4: neither [Unlock] nor [Lock] changes the kind, the platform or the
    unlockability of an achievement. *)
Theorem status_changes_keep_kind (host_time : Z) (online : bool) (a : t) :
  GetType (Unlock host_time online a) = GetType a
  /\ GetPlatform (Unlock host_time online a) = GetPlatform a
  /\ IsUnlockable (Unlock host_time online a) = IsUnlockable a
  /\ GetType (Lock a) = GetType a
  /\ GetPlatform (Lock a) = GetPlatform a
  /\ IsUnlockable (Lock a) = IsUnlockable a.
Proof.
  assert (HU : forall m, Z.land kAchieved m = 0 ->
                         Z.land kAchievedOnline m = 0 ->
             Z.land (flags (Unlock host_time online a)) m = Z.land (flags a) m).
  { intros m HA HO. rewrite Unlock_eq. destruct (IsUnlockable a); [|reflexivity].
    cbn [flags with_flags with_unlock_time]. rewrite Z.land_lor_distr_l.
    destruct online; rewrite ?Z.land_lor_distr_l, ?HA, ?HO; apply Z.lor_0_r. }
  assert (HL : forall m, Z.land 0xFFFCFFFF m = m ->
             Z.land (flags (Lock a)) m = Z.land (flags a) m).
  { intros m Hm. rewrite Lock_eq. cbn [flags with_flags with_unlock_time].
    now rewrite <- Z.land_assoc, Hm. }
  unfold GetType, GetPlatform, IsUnlockable.
  rewrite !HU, !HL by reflexivity. repeat split; reflexivity.
Qed.
End AchievementAlgebra.

Lemma Lock_undoes_Unlock_witness :
  Achievement.Lock
    (Achievement.Unlock 0x01D2C8F4A1B2C3D4 true
       (Achievement.mk 7 [65] [66] [67] 32 25 0x100003 0))
  = Achievement.mk 7 [65] [66] [67] 32 25 0x100003 0.
Proof.
  apply (Lock_undoes_Unlock 0x01D2C8F4A1B2C3D4 true
           (Achievement.mk 7 [65] [66] [67] 32 25 0x100003 0)).
  - cbn. lia.
  - reflexivity.
  - reflexivity.
  - reflexivity.
Defined.

(** ** Scanning, in general *)

Lemma byte_pairs_ind (P : list Z -> Prop) :
  P [] -> (forall b, P [b]) ->
  (forall b0 b1 rest, P rest -> P (b0 :: b1 :: rest)) ->
  forall l, P l.
Proof.
  intros H0 H1 H2. fix IH 1.
  intros [|b0 [|b1 rest]]; [exact H0 | apply H1 | apply H2, IH].
Qed.

(** The scan of [ReadNullTermString] is the C-string scan of the
    byte-swapped code units of the memory. *)
Lemma ReadNullTermString_units (mem : list Z) :
  ReadNullTermString mem
  = wstring_of_c_str (map byte_swap (load_wchars mem)).
Proof.
  induction mem as [|b|b0 b1 rest IH] using byte_pairs_ind;
    [reflexivity | reflexivity |].
  cbn [ReadNullTermString load_wchars map wstring_of_c_str].
  now rewrite IH.
Qed.

Lemma wstring_of_c_str_terminated (units : list Z) :
  if existsb (fun c => c =? 0) units
  then exists s, wstring_of_c_str units = Ok s
  else wstring_of_c_str units = Fault OutOfBounds.
Proof.
  induction units as [|c units IH]; [reflexivity|].
  cbn [existsb wstring_of_c_str]. destruct (c =? 0); cbn [orb].
  - now exists [].
  - destruct (existsb _ units).
    + destruct IH as [s ->]. now exists (c :: s).
    + now rewrite IH.
Qed.

Lemma swap_load_bytes (b0 b1 : Z) :
  is_byte b0 -> is_byte b1 -> byte_swap (load_wchar b0 b1) = b0 * 256 + b1.
Proof.
  unfold is_byte, load_wchar. intros H0 H1.
  rewrite byte_swap_arith by (unfold is_wchar; lia).
  assert (Hm : (b0 + b1 * 256) mod 256 = b0)
    by (symmetry; apply (Z.mod_unique _ _ b1); lia).
  assert (Hd : (b0 + b1 * 256) / 256 = b1)
    by (symmetry; apply (Z.div_unique _ _ _ b0); lia).
  now rewrite Hm, Hd.
Qed.

Lemma be_bytes_app (s1 s2 : wstring) :
  be_bytes (s1 ++ s2) = be_bytes s1 ++ be_bytes s2.
Proof. apply flat_map_app. Qed.

(** A successful scan of byte memory read the big-endian bytes of its
    result and a terminator. *)
Lemma ReadNullTermString_inv (mem : list Z) (s : wstring) :
  Forall is_byte mem -> ReadNullTermString mem = Ok s ->
  wf_wstring s /\ no_null s
  /\ exists rest, mem = be_bytes s ++ 0 :: 0 :: rest.
Proof.
  revert s. induction mem as [|b|b0 b1 rest IH] using byte_pairs_ind;
    intros s Hb Hok; [discriminate | discriminate |].
  apply Forall_cons in Hb as [Hb0 Hb]. apply Forall_cons in Hb as [Hb1 Hb].
  cbn [ReadNullTermString] in Hok.
  rewrite swap_load_bytes in Hok by assumption.
  unfold is_byte in Hb0, Hb1.
  destruct (Z.eqb_spec (b0 * 256 + b1) 0) as [Hz|Hnz].
  - injection Hok as <-. repeat split; [constructor | constructor|].
    exists rest. cbn. repeat f_equal; lia.
  - destruct (ReadNullTermString rest) as [s'|f] eqn:Hrest; [|discriminate].
    injection Hok as <-. destruct (IH s' Hb eq_refl) as (Hwf & Hnn & tail & ->).
    repeat split.
    + constructor; [unfold is_wchar; lia | exact Hwf].
    + constructor; [exact Hnz | exact Hnn].
    + exists tail. cbn [be_bytes flat_map app]. fold (be_bytes s').
      assert (Hq : (b0 * 256 + b1) / 256 = b0)
        by (symmetry; apply (Z.div_unique _ _ _ b1); lia).
      assert (Hr : (b0 * 256 + b1) mod 256 = b1)
        by (symmetry; apply (Z.mod_unique _ _ b0); lia).
      now rewrite Hq, Hr.
Qed.

Lemma existsb_swapped (units : list Z) :
  existsb (fun c => c =? 0) (map byte_swap units)
  = existsb (fun c => byte_swap c =? 0) units.
Proof.
  induction units as [|c l IH]; [reflexivity|].
  cbn [map existsb]. now rewrite IH.
Qed.

(** X5: [ReadNullTermString] returns a string exactly when a zero code
    unit lies in the memory readable at its pointer; when none does, the
    scan leaves that memory. *)
Theorem ReadNullTermString_terminates_at_zero (mem : list Z) :
  if has_terminator mem
  then exists s, ReadNullTermString mem = Ok s
  else ReadNullTermString mem = Fault OutOfBounds.
Proof.
  rewrite ReadNullTermString_units. unfold has_terminator.
  pose proof (wstring_of_c_str_terminated (map byte_swap (load_wchars mem)))
    as H.
  now rewrite existsb_swapped in H.
Qed.

(** X6: on byte memory, [ReadNullTermString] returns [s] exactly when the
    memory starts with the big-endian bytes of [s], where [s] consists of
    non-zero 16-bit code units, followed by a zero code unit. *)
Theorem ReadNullTermString_decodes_be (mem : list Z) (s : wstring) :
  Forall is_byte mem ->
  ReadNullTermString mem = Ok s
  <-> wf_wstring s /\ no_null s
      /\ exists rest, mem = be_bytes s ++ 0 :: 0 :: rest.
Proof.
  intros Hb. split.
  - now apply ReadNullTermString_inv.
  - intros (Hwf & Hnn & rest & ->). now apply ReadNullTermString_be_bytes.
Qed.

Lemma ReadNullTermString_decodes_be_witness :
  ReadNullTermString [0; 72; 0; 105; 0; 0; 7] = Ok [72; 105]
  <-> wf_wstring [72; 105] /\ no_null [72; 105]
      /\ exists rest,
           [0; 72; 0; 105; 0; 0; 7] = be_bytes [72; 105] ++ 0 :: 0 :: rest.
Proof.
  apply (ReadNullTermString_decodes_be [0; 72; 0; 105; 0; 0; 7] [72; 105]).
  repeat constructor; unfold is_byte; lia.
Defined.

(** ** Title-played records, both ways *)

Lemma length_swapped (units : list Z) :
  length (flat_map (fun c => store_wchar (byte_swap c)) units)
  = (2 * length units)%nat.
Proof.
  induction units as [|c l IH]; [reflexivity|].
  cbn [flat_map store_wchar app length]. rewrite IH. lia.
Qed.

(** X7: a title-played record whose integer members are in range and
    whose name has no zero code unit is read back by [ReadGPD] from what
    [WriteGPD] wrote, provided the destination held a zero code unit right
    after the place of the name (as a zero-filled buffer does). *)
Theorem TitlePlayed_roundtrip
    (self : TitlePlayed.t) (h : X_XDBF_GPD_TITLEPLAYED.t)
    (pre rest : list Z) :
  TitlePlayed.in_range self ->
  wf_wstring (TitlePlayed.title_name self) ->
  no_null (TitlePlayed.title_name self) ->
  length pre = (2 * length (TitlePlayed.title_name self))%nat ->
  exists dest',
    TitlePlayed.WriteGPD self (AtPtr h (pre ++ 0 :: 0 :: rest)) = Ok dest'
    /\ TitlePlayed.ReadGPD dest' = Ok self.
Proof.
  intros Hrange Hwf Hnn Hpre. unfold TitlePlayed.WriteGPD. cbn [trailing].
  rewrite copy_and_swap_c_str
    by (rewrite ?length_app; cbn [length]; auto; lia).
  rewrite <- Hpre, drop_app_length. eexists. split; [reflexivity|].
  unfold TitlePlayed.ReadGPD. cbn [header trailing].
  rewrite ReadNullTermString_be_bytes by assumption.
  cbn [mbind outcome_bind]. unfold mret, outcome_ret.
  destruct self. unfold TitlePlayed.in_range in Hrange. cbn in *.
  unfold to_uint32, to_uint16, to_uint64.
  rewrite !Z.mod_small by lia. reflexivity.
Qed.

Lemma TitlePlayed_roundtrip_witness :
  exists dest',
    TitlePlayed.WriteGPD sample_title
      (AtPtr sample_title_header ([7; 7] ++ 0 :: 0 :: [9])) = Ok dest'
    /\ TitlePlayed.ReadGPD dest' = Ok sample_title.
Proof.
  apply (TitlePlayed_roundtrip sample_title sample_title_header [7; 7] [9]).
  - unfold TitlePlayed.in_range. cbn. lia.
  - repeat constructor; unfold is_wchar; lia.
  - repeat constructor; lia.
  - reflexivity.
Defined.

(** X8: [WriteGPD] needs two bytes of destination per code unit of the
    name and goes out of bounds with fewer.  With enough room it stores
    the header of the record, keeps the size of the destination and leaves
    every byte after the name as it was. *)
Theorem WriteGPD_bounds
    (self : TitlePlayed.t) (dest : at_ptr X_XDBF_GPD_TITLEPLAYED.t) :
  let n := (2 * length (TitlePlayed.title_name self))%nat in
  if (n <=? length (trailing dest))%nat
  then exists txt,
         TitlePlayed.WriteGPD self dest
         = Ok (AtPtr (TitlePlayed.to_header self) txt)
         /\ length txt = length (trailing dest)
         /\ drop n txt = drop n (trailing dest)
  else TitlePlayed.WriteGPD self dest = Fault OutOfBounds.
Proof.
  intros n. subst n. unfold TitlePlayed.WriteGPD, copy_and_swap, c_str.
  rewrite length_app. cbn [length].
  destruct (Nat.leb_spec (length (TitlePlayed.title_name self))
                         (length (TitlePlayed.title_name self) + 1)); [|lia].
  rewrite take_app_length. unfold write_bytes. rewrite length_swapped.
  destruct (Nat.leb_spec (2 * length (TitlePlayed.title_name self))
                         (length (trailing dest))) as [Hle|Hgt].
  - destruct (Z.leb_spec
                (0 + Z.of_nat (2 * length (TitlePlayed.title_name self)))
                (Z.of_nat (length (trailing dest)))); [|lia].
    change (Z.to_nat 0) with 0%nat. rewrite take_0.
    cbn [Z.leb andb app Nat.add mbind outcome_bind].
    eexists. split; [reflexivity|]. split.
    + rewrite length_app, length_swapped, length_drop. lia.
    + rewrite drop_app_length'; [reflexivity | now rewrite length_swapped].
  - destruct (Z.leb_spec
                (0 + Z.of_nat (2 * length (TitlePlayed.title_name self)))
                (Z.of_nat (length (trailing dest)))); [lia|].
    reflexivity.
Qed.

(** ** The layout an achievement is decoded from *)

Lemma Forall_bytes_after (s : wstring) (rest : list Z) :
  Forall is_byte (be_bytes s ++ 0 :: 0 :: rest) -> Forall is_byte rest.
Proof.
  intros H. apply Forall_app in H as [_ H].
  apply Forall_cons in H as [_ H]. now apply Forall_cons in H as [_ H].
Qed.

(** X9: on byte memory, [Achievement::ReadGPD] returns a record exactly
    when the memory after the header starts with three strings of non-zero
    code units, each in big-endian bytes and followed by a zero code unit:
    the label, the description and the unachieved description of the
    record, in this order.  The integer members are the header's,
    converted to their declared types. *)
Theorem Achievement_ReadGPD_layout
    (h : X_XDBF_GPD_ACHIEVEMENT.t) (mem : list Z) (a : Achievement.t) :
  Forall is_byte mem ->
  Achievement.ReadGPD (AtPtr h mem) = Ok a
  <-> (Achievement.id a = to_uint16 (X_XDBF_GPD_ACHIEVEMENT.id h)
       /\ Achievement.image_id a
          = to_uint32 (X_XDBF_GPD_ACHIEVEMENT.image_id h)
       /\ Achievement.gamerscore a
          = to_uint32 (X_XDBF_GPD_ACHIEVEMENT.gamerscore h)
       /\ Achievement.flags a = to_uint32 (X_XDBF_GPD_ACHIEVEMENT.flags h)
       /\ Achievement.unlock_time a
          = to_uint64 (X_XDBF_GPD_ACHIEVEMENT.unlock_time h))
      /\ (wf_wstring (Achievement.label a) /\ no_null (Achievement.label a))
      /\ (wf_wstring (Achievement.description a)
          /\ no_null (Achievement.description a))
      /\ (wf_wstring (Achievement.unachieved_desc a)
          /\ no_null (Achievement.unachieved_desc a))
      /\ exists rest,
           mem = be_bytes (Achievement.label a) ++ 0 :: 0
                 :: be_bytes (Achievement.description a) ++ 0 :: 0
                 :: be_bytes (Achievement.unachieved_desc a) ++ 0 :: 0
                 :: rest.
Proof.
  intros Hb. unfold Achievement.ReadGPD. cbn [header trailing]. split.
  - intros Hok.
    destruct (ReadNullTermString mem) as [l|f] eqn:Hl; [|discriminate].
    apply ReadNullTermString_inv in Hl as (Hl1 & Hl2 & m1 & ->); [|exact Hb].
    cbn [mbind outcome_bind] in Hok. rewrite drop_past_string in Hok.
    apply Forall_bytes_after in Hb.
    destruct (ReadNullTermString m1) as [d|f] eqn:Hd; [|discriminate].
    apply ReadNullTermString_inv in Hd as (Hd1 & Hd2 & m2 & ->); [|exact Hb].
    cbn [mbind outcome_bind] in Hok. rewrite drop_past_string in Hok.
    apply Forall_bytes_after in Hb.
    destruct (ReadNullTermString m2) as [u|f] eqn:Hu; [|discriminate].
    apply ReadNullTermString_inv in Hu as (Hu1 & Hu2 & m3 & ->); [|exact Hb].
    cbn [mbind outcome_bind] in Hok. injection Hok as <-.
    cbn. repeat split; try assumption. now exists m3.
  - intros ((Hid & Him & Hg & Hf & Ht) & (Hl1 & Hl2) & (Hd1 & Hd2)
            & (Hu1 & Hu2) & rest & ->).
    rewrite ReadNullTermString_be_bytes by assumption.
    cbn [mbind outcome_bind]. rewrite drop_past_string.
    rewrite ReadNullTermString_be_bytes by assumption.
    cbn [mbind outcome_bind]. rewrite drop_past_string.
    rewrite ReadNullTermString_be_bytes by assumption.
    cbn [mbind outcome_bind]. unfold mret, outcome_ret.
    destruct a. cbn in *. now subst.
Qed.

Lemma Achievement_ReadGPD_layout_witness :
  Achievement.ReadGPD sample_achievement_src
  = Ok (Achievement.mk 7 [65; 66; 67] [68] [69] 32 25 0x100003 0)
  <-> (7 = to_uint16 7 /\ 32 = to_uint32 32 /\ 25 = to_uint32 25
       /\ 0x100003 = to_uint32 0x100003 /\ 0 = to_uint64 0)
      /\ (wf_wstring [65; 66; 67] /\ no_null [65; 66; 67])
      /\ (wf_wstring [68] /\ no_null [68])
      /\ (wf_wstring [69] /\ no_null [69])
      /\ exists rest,
           trailing sample_achievement_src
           = be_bytes [65; 66; 67] ++ 0 :: 0
             :: be_bytes [68] ++ 0 :: 0 :: be_bytes [69] ++ 0 :: 0 :: rest.
Proof.
  apply (Achievement_ReadGPD_layout sample_achievement_header
           (trailing sample_achievement_src)
           (Achievement.mk 7 [65; 66; 67] [68] [69] 32 25 0x100003 0)).
  repeat constructor; unfold is_byte; lia.
Defined.

(** ** Stored settings *)

Lemma memcpy_resized (old mem : list Z) (n : nat) :
  memcpy (resize n 0 old) mem n
  = if (n <=? length mem)%nat then Ok (take n mem) else Fault OutOfBounds.
Proof.
  unfold memcpy, read_bytes.
  destruct (Nat.leb_spec n (length mem)) as [Hle|Hgt]; [|reflexivity].
  cbn [mbind outcome_bind].
  rewrite write_bytes_front by (rewrite length_take, length_resize; lia).
  rewrite drop_ge by (rewrite length_take, length_resize; lia).
  now rewrite app_nil_r.
Qed.

Lemma Setting_ReadGPD_eq
    (src : at_ptr X_XDBF_GPD_SETTING.t) (self : Setting.t) :
  let v := X_XDBF_GPD_SETTING.value (header src) in
  let cbData := Z.to_nat (X_XUSER_DATA.get4 v) in
  Setting.ReadGPD src self
  = if bool_decide (X_XUSER_DATA.type v = kBinary
                    \/ X_XUSER_DATA.type v = kUnicode)
    then if (cbData <=? length (trailing src))%nat
         then Ok (Setting.mk (X_XDBF_GPD_SETTING.setting_id (header src)) v
                    (take cbData (trailing src)))
         else Fault OutOfBounds
    else Ok (Setting.mk (X_XDBF_GPD_SETTING.setting_id (header src)) v
               (Setting.extraData self)).
Proof.
  intros v cbData. subst v cbData. unfold Setting.ReadGPD.
  cbn [Setting.value Setting.extraData Setting.id].
  destruct (X_XUSER_DATA.type (X_XDBF_GPD_SETTING.value (header src)));
    repeat case_bool_decide; try (exfalso; intuition congruence);
    try reflexivity;
    rewrite memcpy_resized; destruct (_ <=? _)%nat; reflexivity.
Qed.

(** X10: [Setting::ReadGPD] copies the id and the value of the stored
    struct.  For a Binary or Unicode value it replaces the buffer of the
    setting by the first [cbData] bytes after the struct, whatever the
    buffer held, and goes out of bounds when fewer bytes are readable
    there; for every other type it leaves the buffer as it was, so a
    setting that is read into again keeps its old bytes. *)
Theorem Setting_ReadGPD_spec
    (src : at_ptr X_XDBF_GPD_SETTING.t) (self : Setting.t) :
  let v := X_XDBF_GPD_SETTING.value (header src) in
  let cbData := Z.to_nat (X_XUSER_DATA.get4 v) in
  match X_XUSER_DATA.type v with
  | kBinary | kUnicode =>
      if (cbData <=? length (trailing src))%nat
      then Setting.ReadGPD src self
           = Ok (Setting.mk (X_XDBF_GPD_SETTING.setting_id (header src)) v
                   (take cbData (trailing src)))
      else Setting.ReadGPD src self = Fault OutOfBounds
  | _ =>
      Setting.ReadGPD src self
      = Ok (Setting.mk (X_XDBF_GPD_SETTING.setting_id (header src)) v
              (Setting.extraData self))
  end.
Proof.
  intros v cbData. rewrite Setting_ReadGPD_eq. fold v. fold cbData.
  destruct (X_XUSER_DATA.type v); case_bool_decide;
    try (exfalso; intuition congruence); try reflexivity;
    destruct (_ <=? _)%nat; reflexivity.
Qed.

(** X11: a Binary or Unicode setting whose length member is the size of
    its buffer is read back by [ReadGPD] from a struct holding its id and
    value with its buffer right after, whatever follows in memory and
    whatever the setting read into held. *)
Theorem Setting_layout_roundtrip
    (st prev : Setting.t) (rest : list Z) :
  X_XUSER_DATA.type (Setting.value st) = kBinary
  \/ X_XUSER_DATA.type (Setting.value st) = kUnicode ->
  X_XUSER_DATA.get4 (Setting.value st)
  = Z.of_nat (length (Setting.extraData st)) ->
  Setting.ReadGPD
    (AtPtr (X_XDBF_GPD_SETTING.mk (Setting.id st) (Setting.value st))
           (Setting.extraData st ++ rest)) prev
  = Ok st.
Proof.
  intros Hty Hcb. rewrite Setting_ReadGPD_eq.
  cbn [header trailing X_XDBF_GPD_SETTING.value
       X_XDBF_GPD_SETTING.setting_id].
  rewrite bool_decide_eq_true_2 by exact Hty.
  rewrite Hcb, Nat2Z.id, length_app.
  destruct (Nat.leb_spec (length (Setting.extraData st))
                         (length (Setting.extraData st) + length rest));
    [|lia].
  rewrite take_app_length. now destruct st.
Qed.

Lemma Setting_layout_roundtrip_witness :
  Setting.ReadGPD
    (AtPtr (X_XDBF_GPD_SETTING.mk (Setting.id sample_setting)
              (Setting.value sample_setting))
           (Setting.extraData sample_setting ++ [1; 2; 3]))
    (Setting.mk 0 sample_storage [9; 9])
  = Ok sample_setting.
Proof.
  apply (Setting_layout_roundtrip sample_setting
           (Setting.mk 0 sample_storage [9; 9]) [1; 2; 3]).
  - right. reflexivity.
  - reflexivity.
Defined.

Lemma length_load_wchars (bytes : list Z) :
  length (load_wchars bytes) = (length bytes / 2)%nat.
Proof.
  induction bytes as [|b|b0 b1 rest IH] using byte_pairs_ind;
    [reflexivity | reflexivity |].
  cbn [load_wchars length]. rewrite IH.
  replace (S (S (length rest))) with (length rest + 1 * 2)%nat by lia.
  rewrite Nat.div_add by lia. lia.
Qed.

Lemma swapped_as_le_bytes (units : list Z) :
  flat_map (fun c => store_wchar (byte_swap c)) units
  = le_bytes (map byte_swap units).
Proof.
  induction units as [|c l IH]; [reflexivity|].
  cbn [flat_map map le_bytes]. now rewrite IH.
Qed.

(** [ValueString] of a Unicode setting is the C-string scan of the
    byte-swapped code units of its buffer. *)
Lemma ValueString_units (st : Setting.t) :
  X_XUSER_DATA.type (Setting.value st) = kUnicode ->
  Setting.ValueString st
  = wstring_of_c_str (map byte_swap (load_wchars (Setting.extraData st))).
Proof.
  intros Hty. unfold Setting.ValueString, sizeof_wchar_t.
  rewrite bool_decide_eq_true_2 by exact Hty.
  cbn [assert mbind outcome_bind].
  set (e := Setting.extraData st). unfold copy_and_swap.
  rewrite length_load_wchars.
  destruct (Nat.leb_spec (length e / 2) (length e / 2)); [|lia].
  rewrite take_ge by (rewrite length_load_wchars; lia).
  pose proof (Nat.div_mod_eq (length e) 2) as Hdm.
  pose proof (Nat.mod_upper_bound (length e) 2 ltac:(lia)) as Hmod.
  rewrite write_bytes_front
    by (rewrite length_swapped, length_load_wchars, length_resize; lia).
  cbn [mbind outcome_bind].
  rewrite swapped_as_le_bytes, load_wchars_le_bytes.
  rewrite length_le_bytes, length_map, length_load_wchars, resize_nil,
          drop_replicate.
  replace (length e - 2 * (length e / 2))%nat with (length e mod 2)%nat by lia.
  destruct (length e mod 2)%nat as [|[|k]]; [| |lia];
    cbn [replicate load_wchars]; now rewrite app_nil_r.
Qed.

(** X12: on a Unicode setting [ValueString()] returns what
    [ReadNullTermString] returns on the buffer of the setting; on a
    setting of another type its assertion fails. *)
Theorem ValueString_is_scan (st : Setting.t) :
  Setting.ValueString st
  = if bool_decide (X_XUSER_DATA.type (Setting.value st) = kUnicode)
    then ReadNullTermString (Setting.extraData st)
    else Fault AssertionFailure.
Proof.
  case_bool_decide as Hty.
  - rewrite ValueString_units by exact Hty.
    now rewrite ReadNullTermString_units.
  - unfold Setting.ValueString. now rewrite bool_decide_eq_false_2.
Qed.

Section SettingStrings.
Import Setting.

Variable XPROFILEID_TYPE : Z -> X_XUSER_DATA_TYPE.

(** X13: [ValueString()] stops at the first zero code unit: after
    [Value(s)] of a string with an embedded null, it returns the part of
    [s] before that null and drops the rest. *)
Theorem ValueString_stops_at_null (s1 s2 : wstring) (self : t) :
  XPROFILEID_TYPE (id self) = kUnicode ->
  wf_wstring s1 -> no_null s1 -> wf_wstring s2 ->
  Z.of_nat ((length (s1 ++ 0 :: s2) + 1) * sizeof_wchar_t) < 2 ^ 32 ->
  exists self',
    Value_wstring XPROFILEID_TYPE (s1 ++ 0 :: s2) self = Ok self'
    /\ ValueString self' = Ok s1.
Proof.
  intros Hty Hwf1 Hnn Hwf2 Hfit. eexists. split.
  - apply Value_wstring_result; [exact Hty | | exact Hfit].
    apply Forall_app. split; [exact Hwf1|].
    constructor; [unfold is_wchar; lia | exact Hwf2].
  - rewrite ValueString_units by reflexivity.
    rewrite <- ReadNullTermString_units. cbn [extraData].
    rewrite be_bytes_app. cbn [be_bytes flat_map app].
    change (0 / 256) with 0. change (0 mod 256) with 0.
    rewrite <- app_assoc. cbn [app].
    now apply ReadNullTermString_be_bytes.
Qed.

End SettingStrings.

Lemma ValueString_stops_at_null_witness :
  exists self',
    Setting.Value_wstring sample_mandate ([72; 105] ++ 0 :: [33])
      sample_setting = Ok self'
    /\ Setting.ValueString self' = Ok [72; 105].
Proof.
  apply (ValueString_stops_at_null sample_mandate [72; 105] [33]
           sample_setting).
  - reflexivity.
  - repeat constructor; unfold is_wchar; lia.
  - repeat constructor; lia.
  - repeat constructor; unfold is_wchar; lia.
  - vm_compute; reflexivity.
Defined.


(** ** Title id classes *)

Lemma land_shifted_mask (t m k : Z) :
  0 <= k -> Z.land t (Z.shiftl m k) = Z.shiftl (Z.land (Z.shiftr t k) m) k.
Proof.
  intros Hk. apply Z.bits_inj'. intros n Hn. rewrite Z.land_spec.
  destruct (Z.lt_ge_cases n k) as [Hlt|Hge].
  - rewrite !Z.shiftl_spec_low by exact Hlt. apply andb_false_r.
  - rewrite !Z.shiftl_spec_high, Z.land_spec, Z.shiftr_spec by lia.
    now replace (n - k + k) with n by lia.
Qed.

(** The two upper bytes of a title id whose upper half is known. *)
Lemma upper_bytes_of (t c : Z) :
  Z.shiftr t 16 = c ->
  Z.land t 0xFF000000 = Z.shiftl (Z.land c 0xFF00) 16
  /\ Z.land t 0xFF0000 = Z.shiftl (Z.land c 0xFF) 16.
Proof.
  intros <-. split.
  - change 0xFF000000 with (Z.shiftl 0xFF00 16).
    now apply land_shifted_mask.
  - change 0xFF0000 with (Z.shiftl 0xFF 16).
    now apply land_shifted_mask.
Qed.

(** X15: every title id that [XamIsSystemExperienceTitleId] accepts is
    one that [XamIsSystemTitleId] accepts, and an arcade title id
    (upper half 'XA') is accepted by neither. *)
Theorem system_experience_is_system (title_id : Z) :
  (if XamIsSystemExperienceTitleId title_id
   then XamIsSystemTitleId title_id = true
   else True)
  /\ (if Z.shiftr title_id 16 =? 0x5841
      then XamIsSystemTitleId title_id = false
           /\ XamIsSystemExperienceTitleId title_id = false
      else True).
Proof.
  split.
  - unfold XamIsSystemExperienceTitleId, XamIsSystemTitleId.
    destruct (Z.eqb_spec title_id 0) as [->|Hnz]; [reflexivity|].
    destruct (Z.eqb_spec (Z.shiftr title_id 16) 0x584A) as [HJ|_].
    { destruct (upper_bytes_of _ _ HJ) as [-> ->]. reflexivity. }
    destruct (Z.eqb_spec (Z.shiftr title_id 16) 0x5848) as [HH|_].
    { destruct (upper_bytes_of _ _ HH) as [-> ->]. reflexivity. }
    destruct (Z.eqb_spec title_id 0x584E07D2) as [->|_]; [reflexivity|].
    destruct (Z.eqb_spec title_id 0x584E07D1) as [->|_]; [reflexivity|].
    exact I.
  - destruct (Z.eqb_spec (Z.shiftr title_id 16) 0x5841) as [HA|_]; [|exact I].
    unfold XamIsSystemExperienceTitleId, XamIsSystemTitleId.
    destruct (upper_bytes_of _ _ HA) as [-> ->]. rewrite HA.
    destruct (Z.eqb_spec title_id 0) as [->|_]; [discriminate HA|].
    split; [reflexivity|]. cbn [Z.eqb].
    destruct (Z.eqb_spec title_id 0x584E07D2) as [->|_]; [discriminate HA|].
    destruct (Z.eqb_spec title_id 0x584E07D1) as [->|_]; [discriminate HA|].
    reflexivity.
Qed.

(** ** Dialogs *)

Lemma strncpy_bytes_within (dt : list Z) (tail : list Z) (n : nat) :
  (n <= length dt)%nat ->
  exists l, strncpy_bytes (dt ++ tail) n = Ok l /\ length l = n
            /\ (Forall (fun c => c <> 0) dt -> l = take n dt).
Proof.
  revert dt. induction n as [|n IH]; intros dt Hn.
  - exists []. split; [reflexivity|]. split; [reflexivity|].
    intros _. now rewrite take_0.
  - destruct dt as [|c dt]; [simpl in Hn; lia|].
    cbn [app strncpy_bytes]. destruct (Z.eqb_spec c 0) as [->|Hc].
    + eexists. split; [reflexivity|]. split; [apply length_replicate|].
      intros Hnn. apply Forall_cons in Hnn as [Hc _]. contradiction.
    + destruct (IH dt ltac:(simpl in Hn; lia)) as (l & -> & Hlen & Htake).
      exists (c :: l). split; [reflexivity|]. split; [simpl; lia|].
      intros Hnn. apply Forall_cons in Hnn as [_ Hnn].
      cbn [take firstn]. now rewrite <- Htake.
Qed.

Section DialogConstruction.
Variable to_string : wstring -> list Z.

(** X16: a dialog never has an empty title.  A message box keeps the
    title it is given and, without one, is titled "Message Box"; its other
    members are the arguments, and the slot for the chosen button, when
    there is one, holds the default button.  A keyboard dialog keeps the
    title it is given; without a title it takes its description as title
    and is left without description, or is titled "Keyboard Input" when it
    has no description either. *)
Theorem dialog_title_never_empty
    (title description default_text : wstring) (buttons : list wstring)
    (default_button : Z) (out_chosen_button : option Z)
    (out_text : option wstring) (max_length : Z) :
  MessageBoxDialog.title_
    (MessageBoxDialog.create to_string title description buttons
       default_button out_chosen_button) <> []
  /\ match KeyboardInputDialog.create to_string title description
             default_text out_text max_length with
     | Ok d =>
         KeyboardInputDialog.title_ d <> []
         /\ (if negb (Z.of_nat (length (to_string title)) =? 0)
             then KeyboardInputDialog.title_ d = to_string title
                  /\ KeyboardInputDialog.description_ d
                     = to_string description
             else if negb (Z.of_nat (length (to_string description)) =? 0)
             then KeyboardInputDialog.title_ d = to_string description
                  /\ KeyboardInputDialog.description_ d = []
             else KeyboardInputDialog.title_ d = chars "Keyboard Input"%string
                  /\ KeyboardInputDialog.description_ d = [])
     | Fault _ => True
     end
  /\ MessageBoxDialog.create to_string title description buttons
       default_button out_chosen_button
     = MessageBoxDialog.mk false
         (match to_string title with
          | [] => [77; 101; 115; 115; 97; 103; 101; 32; 66; 111; 120]
          | _ :: _ => to_string title
          end)
         (to_string description) buttons default_button
         (match out_chosen_button with
          | Some _ => Some default_button
          | None => None
          end)
  /\ chars "Message Box"%string
     = [77; 101; 115; 115; 97; 103; 101; 32; 66; 111; 120]
  /\ chars "Keyboard Input"%string
     = [75; 101; 121; 98; 111; 97; 114; 100; 32; 73; 110; 112; 117; 116]
  /\ match KeyboardInputDialog.create to_string title description
             default_text out_text max_length with
     | Ok d =>
         KeyboardInputDialog.has_opened_ d = false
         /\ KeyboardInputDialog.default_text_ d = to_string default_text
         /\ KeyboardInputDialog.out_text_ d
            = match out_text with
              | Some _ => Some default_text
              | None => None
              end
         /\ KeyboardInputDialog.max_length_ d = max_length
     | Fault _ => True
     end.
Proof.
  assert (Hne : forall l : list Z,
             negb (Z.of_nat (length l) =? 0) = true -> l <> []).
  { intros l H ->. discriminate H. }
  assert (He : forall l : list Z,
             negb (Z.of_nat (length l) =? 0) = false -> l = []).
  { intros [|c l] H; [reflexivity|].
    cbn [length] in H. destruct (Z.eqb_spec (Z.of_nat (S (length l))) 0);
      [lia | discriminate]. }
  split; [|split; [|split; [|split; [|split]]]].
  - unfold MessageBoxDialog.create. cbn [MessageBoxDialog.title_].
    destruct (negb _) eqn:Ht; [now apply Hne | discriminate].
  - unfold KeyboardInputDialog.create.
    destruct (negb (Z.of_nat (length (to_string title)) =? 0)) eqn:Ht;
      [|destruct (negb (Z.of_nat (length (to_string description)) =? 0))
          eqn:Hd];
      destruct (strncpy _ _ _); cbn; try exact I;
      repeat split; auto; try discriminate.
  - unfold MessageBoxDialog.create.
    destruct (negb (Z.of_nat (length (to_string title)) =? 0)) eqn:Ht.
    + apply Hne in Ht. destruct (to_string title); [congruence | reflexivity].
    + apply He in Ht. rewrite Ht. reflexivity.
  - reflexivity.
  - reflexivity.
  - unfold KeyboardInputDialog.create.
    destruct (if negb (Z.of_nat (length (to_string title)) =? 0)
              then (to_string title, to_string description)
              else if negb (Z.of_nat (length (to_string description)) =? 0)
                   then (to_string description, chars ""%string)
                   else (chars "Keyboard Input"%string,
                         to_string description))
      as [title_ description_].
    destruct (strncpy _ _ _); cbn; [|exact I]. repeat split.
Qed.

(** X17: a keyboard dialog created with a positive [max_length] has a
    text buffer of [max_length] bytes whose last byte is zero; when the
    default text has no zero byte, the buffer holds its first
    [max_length - 1] characters and zeros after them. *)
Theorem keyboard_text_buffer
    (title description default_text : wstring) (out_text : option wstring)
    (max_length : Z) :
  0 < max_length < 2 ^ 64 ->
  exists d,
    KeyboardInputDialog.create to_string title description default_text
      out_text max_length = Ok d
    /\ Z.of_nat (length (KeyboardInputDialog.text_buffer_ d)) = max_length
    /\ last (KeyboardInputDialog.text_buffer_ d) = Some 0
    /\ (Forall (fun c => c <> 0) (to_string default_text) ->
        exists zeros,
          KeyboardInputDialog.text_buffer_ d
          = take (Z.to_nat (max_length - 1)) (to_string default_text)
            ++ replicate (S zeros) 0).
Proof.
  intros Hmax. unfold KeyboardInputDialog.create.
  set (dt := to_string default_text).
  rewrite resize_nil, length_replicate, Z2Nat.id by lia.
  unfold to_uint64. rewrite (Z.mod_small (max_length - 1)) by lia.
  set (count := Z.to_nat (Z.min (max_length - 1) (Z.of_nat (length dt)))).
  assert (Hcount : (count <= length dt)%nat) by (subst count; lia).
  assert (Hroom : (count < Z.to_nat max_length)%nat) by (subst count; lia).
  destruct (strncpy_bytes_within dt [0] count Hcount)
    as (l & Hl & Hlen & Htake).
  unfold strncpy. rewrite Hl. cbn [mbind outcome_bind].
  rewrite write_bytes_front by (rewrite length_replicate; lia).
  rewrite drop_replicate, Hlen.
  destruct (Z.to_nat max_length - count)%nat as [|zeros] eqn:Hz; [lia|].
  destruct (if negb (Z.of_nat (length (to_string title)) =? 0)
            then (to_string title, to_string description)
            else if negb (Z.of_nat (length (to_string description)) =? 0)
                 then (to_string description, chars ""%string)
                 else (chars "Keyboard Input"%string, to_string description))
    as [title_ description_].
  eexists. split; [reflexivity|].
  cbn [KeyboardInputDialog.text_buffer_]. repeat split.
  - rewrite length_app, length_replicate, Hlen. lia.
  - rewrite replicate_S_end, app_assoc. apply last_snoc.
  - intros Hnn. exists zeros. rewrite (Htake Hnn). f_equal.
    subst count.
    destruct (Z.min_spec (max_length - 1) (Z.of_nat (length dt)))
      as [[_ ->]|[Hle ->]]; [reflexivity|].
    rewrite Nat2Z.id, !take_ge by lia. reflexivity.
Qed.

(** X18: a keyboard dialog created with [max_length] zero and a default
    text that is not empty writes outside its (empty) text buffer. *)
Theorem keyboard_text_buffer_overrun
    (title description default_text : wstring) (out_text : option wstring) :
  to_string default_text <> [] ->
  KeyboardInputDialog.create to_string title description default_text
    out_text 0 = Fault OutOfBounds.
Proof.
  intros Hdt. unfold KeyboardInputDialog.create.
  set (dt := to_string default_text) in *.
  change (resize (Z.to_nat 0) 0 (@nil Z)) with (@nil Z).
  change (to_uint64 (Z.of_nat (length (@nil Z)) - 1)) with (2 ^ 64 - 1).
  set (count := Z.to_nat (Z.min (2 ^ 64 - 1) (Z.of_nat (length dt)))).
  assert (Hlen : (0 < length dt)%nat) by (destruct dt; [congruence | simpl; lia]).
  assert (Hcount : (count <= length dt)%nat) by (subst count; lia).
  assert (Hpos : (0 < count)%nat) by (subst count; lia).
  destruct (strncpy_bytes_within dt [0] count Hcount) as (l & Hl & Hll & _).
  unfold strncpy. rewrite Hl. cbn [mbind outcome_bind].
  unfold write_bytes. cbn [length].
  destruct (Z.leb_spec (0 + Z.of_nat (length l)) (Z.of_nat 0)); [lia|].
  destruct (if negb (Z.of_nat (length (to_string title)) =? 0)
            then (to_string title, to_string description)
            else if negb (Z.of_nat (length (to_string description)) =? 0)
                 then (to_string description, chars ""%string)
                 else (chars "Keyboard Input"%string, to_string description));
    reflexivity.
Qed.
End DialogConstruction.

Lemma keyboard_text_buffer_witness :
  exists d,
    KeyboardInputDialog.create sample_to_string [] [80] [72; 105; 33]
      (Some []) 3 = Ok d
    /\ Z.of_nat (length (KeyboardInputDialog.text_buffer_ d)) = 3
    /\ last (KeyboardInputDialog.text_buffer_ d) = Some 0
    /\ (Forall (fun c => c <> 0) (sample_to_string [72; 105; 33]) ->
        exists zeros,
          KeyboardInputDialog.text_buffer_ d
          = take (Z.to_nat (3 - 1)) (sample_to_string [72; 105; 33])
            ++ replicate (S zeros) 0).
Proof.
  apply (keyboard_text_buffer sample_to_string [] [80] [72; 105; 33]
           (Some []) 3).
  lia.
Defined.

Lemma keyboard_text_buffer_overrun_witness :
  KeyboardInputDialog.create sample_to_string [] [80] [72; 105; 33]
    (Some []) 0 = Fault OutOfBounds.
Proof.
  apply (keyboard_text_buffer_overrun sample_to_string [] [80] [72; 105; 33]
           (Some [])).
  discriminate.
Defined.

(** ** The text a keyboard dialog hands back *)

Lemma copy_and_swap_prefix (dest src : list Z) (count : nat) :
  (count <= length src)%nat -> wf_wstring (take count src) ->
  (2 * count <= length dest)%nat ->
  copy_and_swap dest src count
  = Ok (be_bytes (take count src) ++ drop (2 * count) dest).
Proof.
  intros Hc Hwf Hroom. unfold copy_and_swap.
  destruct (Nat.leb_spec count (length src)); [|lia].
  rewrite swapped_bytes by exact Hwf.
  assert (Hlen : length (be_bytes (take count src)) = (2 * count)%nat)
    by (rewrite length_be_bytes, length_take; lia).
  rewrite write_bytes_front by lia. now rewrite Hlen.
Qed.

Lemma has_terminator_be_bytes (s : wstring) :
  wf_wstring s -> no_null s -> has_terminator (be_bytes s) = false.
Proof.
  intros Hwf Hnn.
  pose proof (has_terminator_short s [] (2 * length s) Hwf Hnn ltac:(lia))
    as H.
  rewrite take_app_length' in H by (now rewrite length_be_bytes). exact H.
Qed.

(** X19: when a keyboard dialog closes with the text [out_text], the
    guest buffer of [buffer_length] code units receives the first
    [buffer_length] code units of the text in big-endian bytes and zeros
    in the rest of it, whatever it held; nothing after it changes.  A text
    shorter than [buffer_length] is therefore stored with a terminator,
    and a text of [buffer_length] or more code units is cut and stored
    without one. *)
Theorem XamShowKeyboardUI_store_spec
    (buffer_length : nat) (out_text : wstring) (area rest : list Z) :
  wf_wstring out_text -> no_null out_text ->
  length area = (2 * buffer_length)%nat ->
  Z.of_nat buffer_length * 2 < 2 ^ 32 ->
  let stored :=
    be_bytes (take buffer_length out_text)
      ++ replicate (2 * (buffer_length - length out_text)) 0 in
  XamShowKeyboardUI_store (Z.of_nat buffer_length) out_text (area ++ rest)
  = Ok (stored ++ rest)
  /\ length stored = length area
  /\ (if (length out_text <? buffer_length)%nat
      then ReadNullTermString (stored ++ rest) = Ok out_text
      else has_terminator stored = false).
Proof.
  intros Hwf Hnn Harea Hfit stored.
  assert (Hstored : length stored = length area).
  { subst stored. rewrite length_app, length_be_bytes, length_take,
      length_replicate. lia. }
  split; [|split; [exact Hstored|]].
  - unfold XamShowKeyboardUI_store, memset_zero, to_uint32.
    rewrite Z.mod_small by lia.
    replace (Z.to_nat (Z.of_nat buffer_length * 2))
      with (2 * buffer_length)%nat by lia.
    rewrite write_bytes_front
      by (rewrite length_replicate, length_app; lia).
    rewrite length_replicate, <- Harea, drop_app_length, Harea.
    cbn [mbind outcome_bind].
    set (size := Z.to_nat (if Z.of_nat (length out_text)
                                <? Z.of_nat buffer_length
                           then Z.of_nat (length out_text)
                           else Z.of_nat buffer_length)).
    assert (Hsize : size = Nat.min buffer_length (length out_text)).
    { subst size.
      destruct (Z.ltb_spec (Z.of_nat (length out_text))
                           (Z.of_nat buffer_length)); lia. }
    assert (Htake : take size (c_str out_text) = take buffer_length out_text).
    { unfold c_str. rewrite take_app_le by lia. rewrite Hsize.
      destruct (Nat.le_ge_cases buffer_length (length out_text)).
      - now rewrite Nat.min_l.
      - rewrite Nat.min_r, !take_ge by lia. reflexivity. }
    rewrite copy_and_swap_prefix.
    + rewrite Htake. subst stored. rewrite <- app_assoc. do 2 f_equal.
      rewrite drop_app_le by (rewrite length_replicate; lia).
      rewrite drop_replicate. do 2 f_equal. lia.
    + unfold c_str. rewrite length_app. cbn [length]. lia.
    + rewrite Htake. now apply Forall_take.
    + rewrite length_app, length_replicate. lia.
  - destruct (Nat.ltb_spec (length out_text) buffer_length) as [Hlt|Hge].
    + subst stored. rewrite take_ge by lia.
      destruct (buffer_length - length out_text)%nat as [|k] eqn:Hk; [lia|].
      replace (2 * S k)%nat with (S (S (2 * k))) by lia.
      cbn [replicate]. rewrite <- app_assoc. cbn [app].
      now apply ReadNullTermString_be_bytes.
    + subst stored.
      replace (buffer_length - length out_text)%nat with 0%nat by lia.
      cbn [Nat.mul replicate]. rewrite app_nil_r.
      apply has_terminator_be_bytes; now apply Forall_take.
Qed.

Lemma XamShowKeyboardUI_store_spec_witness :
  let stored :=
    be_bytes (take 2 [72; 105; 33]) ++ replicate (2 * (2 - 3)) 0 in
  XamShowKeyboardUI_store (Z.of_nat 2) [72; 105; 33]
    ([255; 255; 255; 255] ++ [7])
  = Ok (stored ++ [7])
  /\ length stored = length [255; 255; 255; 255]
  /\ (if (length [72; 105; 33] <? 2)%nat
      then ReadNullTermString (stored ++ [7]) = Ok [72; 105; 33]
      else has_terminator stored = false).
Proof.
  apply (XamShowKeyboardUI_store_spec 2 [72; 105; 33] [255; 255; 255; 255]
           [7]).
  - repeat constructor; unfold is_wchar; lia.
  - repeat constructor; lia.
  - reflexivity.
  - vm_compute; reflexivity.
Defined.

(** ** What an assignment establishes *)

Section MandateKept.
Import Setting.

Variable XPROFILEID_TYPE : Z -> X_XUSER_DATA_TYPE.

Lemma Value_wstring_tag (s : wstring) (st st' : t) :
  Value_wstring XPROFILEID_TYPE s st = Ok st' ->
  X_XUSER_DATA.type (value st') = XPROFILEID_TYPE (id st')
  /\ id st' = id st.
Proof.
  unfold Value_wstring. rewrite type_matches_set.
  case_bool_decide as Hty; [|discriminate].
  cbn [assert mbind outcome_bind].
  destruct (copy_and_swap _ _ _) as [buf|f]; [|discriminate].
  cbn [mbind outcome_bind].
  destruct (write_bytes _ _ buf) as [buf'|f]; [|discriminate].
  cbn [mbind outcome_bind]. unfold mret, outcome_ret. intros [= <-].
  cbn. now rewrite Hty.
Qed.

(** X20: whenever one of the five [Value] overloads returns, the type tag
    of the setting is the type its id mandates, and the id is the one the
    setting had. *)
Theorem Value_establishes_mandated_type
    (st : t) (n32 n64 f32 f64 : Z) (s : wstring) :
  let established (r : outcome t) : Prop :=
    match r with
    | Ok st' =>
        X_XUSER_DATA.type (value st') = XPROFILEID_TYPE (id st')
        /\ id st' = id st
    | Fault _ => True
    end in
  established (Value_uint32 XPROFILEID_TYPE n32 st)
  /\ established (Value_uint64 XPROFILEID_TYPE n64 st)
  /\ established (Value_float XPROFILEID_TYPE f32 st)
  /\ established (Value_double XPROFILEID_TYPE f64 st)
  /\ established (Value_wstring XPROFILEID_TYPE s st).
Proof.
  intros established. subst established. cbv beta.
  rewrite Value_uint32_eq, Value_uint64_eq, Value_float_eq, Value_double_eq.
  repeat match goal with |- _ /\ _ => split end;
    repeat case_bool_decide; cbn; auto.
  destruct (Value_wstring XPROFILEID_TYPE s st) as [st'|f] eqn:Hv;
    [|exact I].
  exact (Value_wstring_tag s st st' Hv).
Qed.
End MandateKept.

(** ** Flags stay a 32-bit value *)

Lemma uint32_iff_masked (x : Z) :
  0 <= x < 2 ^ 32 <-> Z.land x (Z.ones 32) = x.
Proof.
  rewrite Z.land_ones by lia. split.
  - intros H. now apply Z.mod_small.
  - intros <-. apply Z.mod_pos_bound. lia.
Qed.

(** X21: [Unlock] and [Lock] keep [flags] a 32-bit value. *)
Theorem flags_stay_uint32 (host_time : Z) (online : bool)
    (a : Achievement.t) :
  0 <= Achievement.flags a < 2 ^ 32 ->
  0 <= Achievement.flags (Achievement.Unlock host_time online a) < 2 ^ 32
  /\ 0 <= Achievement.flags (Achievement.Lock a) < 2 ^ 32.
Proof.
  intros Hrange. apply uint32_iff_masked in Hrange. split.
  - apply uint32_iff_masked. rewrite Unlock_eq.
    destruct (Achievement.IsUnlockable a); [|exact Hrange].
    cbn [Achievement.flags Achievement.with_flags
         Achievement.with_unlock_time].
    rewrite Z.land_lor_distr_l, Hrange. f_equal. now destruct online.
  - apply uint32_iff_masked. rewrite Lock_eq.
    cbn [Achievement.flags Achievement.with_flags
         Achievement.with_unlock_time].
    rewrite <- Z.land_assoc. reflexivity.
Qed.

Lemma flags_stay_uint32_witness :
  0 <= Achievement.flags
         (Achievement.Unlock 5 true
            (Achievement.mk 7 [65] [66] [67] 32 25 0xFFFFFFFF 0)) < 2 ^ 32
  /\ 0 <= Achievement.flags
            (Achievement.Lock
               (Achievement.mk 7 [65] [66] [67] 32 25 0xFFFFFFFF 0))
          < 2 ^ 32.
Proof.
  apply (flags_stay_uint32 5 true
           (Achievement.mk 7 [65] [66] [67] 32 25 0xFFFFFFFF 0)).
  cbn. lia.
Defined.

(** X22: every title id whose upper half is 0xFFFE is a system title id,
    and among these ids [XamIsXbox1TitleId] accepts 0xFFFE0000 alone. *)
Theorem FFFE_title_ids (title_id : Z) :
  if Z.shiftr title_id 16 =? 0xFFFE
  then XamIsSystemTitleId title_id = true
       /\ XamIsXbox1TitleId title_id = (title_id =? 0xFFFE0000)
  else True.
Proof.
  destruct (Z.eqb_spec (Z.shiftr title_id 16) 0xFFFE) as [HF|_]; [|exact I].
  unfold XamIsSystemTitleId, XamIsXbox1TitleId.
  destruct (upper_bytes_of _ _ HF) as [-> _]. rewrite HF.
  destruct (Z.eqb_spec title_id 0) as [->|_]; [discriminate HF|].
  split; [reflexivity|].
  destruct (Z.eqb_spec title_id 0xFFFE0000); reflexivity.
Qed.
